(** * Delegation chains and delegation identities

    A shallow embedding of
    [packages/authentication/src/identity/delegation.ts]: the delegation
    record and its signing, the [DelegationChain] builder and its JSON
    form, and the [DelegationIdentity] request transformer.

    Conventions of the embedding.
    - A [BinaryBlob] (a [Buffer]) is a list of bytes.
    - A synchronous computation that may [throw] is a [result]; an [async]
      function is a [Promise], seen once settled (resolved or rejected).
    - A JavaScript value read out of [JSON.parse] is a [JSON] tree; a
      property that is not there reads as [undefined], here [None].
    - A JavaScript string is a [string]; its [length] is [String.length]
      (one character per code unit). *)

From Stdlib Require Import ZArith NArith List String Ascii Bool Lia.
From Stdlib Require Import Strings.Byte.
From Stdlib Require Import HexadecimalString HexadecimalZ.
From Stdlib Require DecimalString.
Import ListNotations.

Local Open Scope string_scope.
Local Open Scope list_scope.

(** ** Exceptions, results and promises *)

(** What the module throws: [new Error(msg)], or the [TypeError] the
    language raises when [null] or [undefined] is destructured.
    [Rejection] is a failure coming from a collaborator (a signer, the
    request-id function, [Principal.fromText]). *)
Inductive exn : Type :=
| Error (msg : string)
| TypeError
| Rejection (why : string).

Inductive result (A : Type) : Type :=
| Ok (a : A)
| Throw (e : exn).
Arguments Ok {A} a.
Arguments Throw {A} e.

Inductive Promise (A : Type) : Type :=
| Resolved (a : A)
| Rejected (e : exn).
Arguments Resolved {A} a.
Arguments Rejected {A} e.

Definition bind_result {A B} (r : result A) (k : A -> result B) : result B :=
  match r with
  | Ok a => k a
  | Throw e => Throw e
  end.

(** [await p] inside an [async] body: a rejection leaves the body. *)
Definition await {A B} (p : Promise A) (k : A -> Promise B) : Promise B :=
  match p with
  | Resolved a => k a
  | Rejected e => Rejected e
  end.

Declare Scope js_scope.
Delimit Scope js_scope with js.
Notation "x <- r ;; k" := (bind_result r (fun x => k))
  (at level 61, r at next level, right associativity) : js_scope.
Notation "'await!' x <- p ;; k" := (await p (fun x => k))
  (at level 61, x name, p at next level, right associativity) : js_scope.
Local Open Scope js_scope.

(** [xs.map(f)] with a callback that may throw: elements are visited in
    order and the first throw ends the whole [map]. *)
Fixpoint mapM {A B} (f : A -> result B) (xs : list A) : result (list B) :=
  match xs with
  | [] => Ok []
  | x :: rest =>
      y <- f x ;;
      ys <- mapM f rest ;;
      Ok (y :: ys)
  end.

(** ** JSON values *)

(** A number is carried by the text [String(v)] prints for it; the module
    applies no arithmetic to a number that comes out of JSON. An object is
    its list of own properties. *)
#[warnings="-register-all"]
Inductive JSON : Type :=
| JNull
| JBool (b : bool)
| JNumber (repr : string)
| JString (s : string)
| JArray (items : list JSON)
| JObject (fields : list (string * JSON)).

(** A JavaScript value as the parser's output can give it: [None] is
    [undefined]. *)
Definition value : Type := option JSON.

Fixpoint assoc {A} (k : string) (fields : list (string * A)) : option A :=
  match fields with
  | [] => None
  | (k', v) :: rest => if String.eqb k k' then Some v else assoc k rest
  end.

(** Reading a property [v.k] for one of the names this module reads
    ([publicKey], [delegations], [delegation], [signature], [pubkey],
    [expiration], [targets]): none of them is inherited, so only an object
    with that own property gives a value. *)
Definition prop (v : value) (k : string) : value :=
  match v with
  | Some (JObject fields) => assoc k fields
  | _ => None
  end.

(** [const { ... } = v] throws a [TypeError] on [null] and [undefined]. *)
Definition destructure (v : value) : result unit :=
  match v with
  | None | Some JNull => Throw TypeError
  | Some _ => Ok tt
  end.

Definition isUndefined (v : value) : bool :=
  match v with
  | None => true
  | Some _ => false
  end.

Definition isArray (v : value) : bool :=
  match v with
  | Some (JArray _) => true
  | _ => false
  end.

(** [String(v)], the conversion to text. An array prints its items
    separated by commas, [null] items as the empty text. An object prints
    through its [toString]: the inherited one gives [[object Object]]; an
    own property of that name is not a function (nothing read out of JSON
    is), the inherited [valueOf] then returns the object itself, and the
    conversion throws a [TypeError]. *)
Fixpoint JS_String (j : JSON) : result string :=
  match j with
  | JNull => Ok "null"
  | JBool true => Ok "true"
  | JBool false => Ok "false"
  | JNumber repr => Ok repr
  | JString s => Ok s
  | JArray items =>
      (fix join (l : list JSON) : result string :=
         match l with
         | [] => Ok ""
         | x :: rest =>
             here <- match x with JNull => Ok "" | _ => JS_String x end ;;
             match rest with
             | [] => Ok here
             | _ =>
                 more <- join rest ;;
                 Ok (here ++ "," ++ more)%string
             end
         end) items
  | JObject fields =>
      match assoc "toString" fields with
      | Some _ => Throw TypeError
      | None => Ok "[object Object]"
      end
  end.

Definition String_of_value (v : value) : result string :=
  match v with
  | None => Ok "undefined"
  | Some j => JS_String j
  end.

(** ** Letter case *)

Definition is_lower (c : ascii) : bool :=
  let n := nat_of_ascii c in (97 <=? n)%nat && (n <=? 122)%nat.

Definition is_upper (c : ascii) : bool :=
  let n := nat_of_ascii c in (65 <=? n)%nat && (n <=? 90)%nat.

Definition upper_char (c : ascii) : ascii :=
  if is_lower c then ascii_of_nat (nat_of_ascii c - 32) else c.

Definition lower_char (c : ascii) : ascii :=
  if is_upper c then ascii_of_nat (nat_of_ascii c + 32) else c.

Fixpoint map_string (f : ascii -> ascii) (s : string) : string :=
  match s with
  | EmptyString => EmptyString
  | String c rest => String (f c) (map_string f rest)
  end.

Definition toUpperCase : string -> string := map_string upper_char.
Definition toLowerCase : string -> string := map_string lower_char.

(** ** Hex text of a blob *)

Definition BinaryBlob : Type := list byte.
Definition DerEncodedBlob : Type := BinaryBlob.

(** [blobFromUint8Array] and [derBlobFromBlob] re-brand their argument. *)
Definition blobFromUint8Array (bytes : list byte) : BinaryBlob := bytes.
Definition derBlobFromBlob (blob : BinaryBlob) : DerEncodedBlob := blob.

Definition hex_alphabet : string := "0123456789abcdef".

(** [alphabet.indexOf(c)], [None] for [-1]. *)
Fixpoint indexOf (c : ascii) (alphabet : string) : option N :=
  match alphabet with
  | EmptyString => None
  | String a rest =>
      if Ascii.eqb c a then Some 0%N else option_map N.succ (indexOf c rest)
  end.

Definition hexDigit (n : N) : ascii :=
  match String.get (N.to_nat n) hex_alphabet with
  | Some c => c
  | None => "?"%char
  end.

(** [blob.toString('hex')]: two lower-case digits per byte. *)
Definition hexOfByte (b : byte) : string :=
  let n := Byte.to_N b in
  String (hexDigit (n / 16)) (String (hexDigit (n mod 16)) EmptyString).

Fixpoint toHex (blob : BinaryBlob) : string :=
  match blob with
  | [] => EmptyString
  | b :: rest => (hexOfByte b ++ toHex rest)%string
  end.

(** Modelled from the spec: [blobFromHex] of the agent package, which is
    not part of this file. The spec calls the text form of a key or a
    signature its hex encoding; this is the decoding, two digits of either
    case per byte, reading the longest well-formed prefix (it never
    fails, as its type [string -> BinaryBlob] says). *)
Fixpoint blobFromHex (hex : string) : BinaryBlob :=
  match hex with
  | String hi (String lo rest) =>
      match indexOf (lower_char hi) hex_alphabet,
            indexOf (lower_char lo) hex_alphabet with
      | Some h, Some l =>
          match Byte.of_N (16 * h + l) with
          | Some b => b :: blobFromHex rest
          | None => []
          end
      | _, _ => []
      end
  | _ => []
  end.

(** ** Numbers, dates and big numbers *)

(** The numbers this module computes with are time values: a whole count
    of milliseconds, or [NaN] for an invalid date. *)
Inductive Number : Type :=
| Num (z : Z)
| NaN.

(** A [Date] is its time value. *)
Inductive Date : Type :=
| DateOf (ms : Z)
| InvalidDate.

(** [+date] *)
Definition valueOf (d : Date) : Number :=
  match d with
  | DateOf ms => Num ms
  | InvalidDate => NaN
  end.

(** The largest time value a [Date] holds, in milliseconds. *)
Definition maxTimeValue : Z := 8640000000000000.

(** A [BigNumber] of bignumber.js, as far as this module builds them: an
    integer of any size, or not-a-number. The sign of zero is not kept. *)
Inductive BigNumber : Type :=
| BigInt (z : Z)
| BigNaN.

(** [new BigNumber(n)] for a number [n]. *)
Definition BigNumber_of (n : Number) : BigNumber :=
  match n with
  | Num z => BigInt z
  | NaN => BigNaN
  end.

(** [x.times(y)] *)
Definition times (x y : BigNumber) : BigNumber :=
  match x, y with
  | BigInt a, BigInt b => BigInt (a * b)
  | _, _ => BigNaN
  end.

(** [x.toString(16)]: lower-case digits, a leading [-] for a negative
    value, and the text [NaN]. *)
Definition toString16 (x : BigNumber) : string :=
  match x with
  | BigInt z => NilZero.string_of_int (Z.to_hex_int z)
  | BigNaN => "NaN"
  end.

(** The constructor's digit check and conversion: every character must be
    in the alphabet of the base. The empty text reads as zero. *)
Fixpoint digits16 (str : string) (acc : N) : option N :=
  match str with
  | EmptyString => Some acc
  | String c rest =>
      match indexOf c hex_alphabet with
      | Some d => digits16 rest (16 * acc + d)
      | None => None
      end
  end.

(** The value [new BigNumber(v, 16)] takes from the text [str] of [v]: a
    leading [-] gives the sign; when a character is outside the alphabet
    and the text is its own upper-case form, the lower-case form is tried
    once; anything else is not-a-number.

    The library's other spellings (a fraction point, blanks or [+] around
    the digits, a [0x] prefix, [Infinity]) give values outside
    [BigNumber] as modelled here and read as [BigNaN]; no statement below
    depends on the value read from such a text. *)
Definition BigNumber_of_text16 (str : string) : BigNumber :=
  let negative := match str with String "-" _ => true | _ => false end in
  let body := match str with String "-" rest => rest | _ => str end in
  let signed (n : N) := BigInt (if negative then - Z.of_N n else Z.of_N n) in
  match digits16 body 0 with
  | Some n => signed n
  | None =>
      if String.eqb body (toUpperCase body) then
        match digits16 (toLowerCase body) 0 with
        | Some n => signed n
        | None => BigNaN
        end
      else BigNaN
  end.

(** [new BigNumber(v, 16)]: the constructor starts with [str = String(v)],
    which may throw; with [BigNumber.DEBUG] unset, as this module leaves
    it, nothing after that throws. *)
Definition BigNumber_base16 (v : value) : result BigNumber :=
  str <- String_of_value v ;;
  Ok (BigNumber_of_text16 str).

(** A value that [String(v)] converts to text. *)
Definition printable (v : value) : bool :=
  match String_of_value v with
  | Ok _ => true
  | Throw _ => false
  end.

(** A 64-bit signed counter holding [z]: what a nanosecond count would
    become if it were kept in one. *)
Definition wrap64 (z : Z) : Z := (z + 2 ^ 63) mod 2 ^ 64 - 2 ^ 63.

(** ** Shapes of the parsed input *)

(** "A string of at least 64 characters". *)
Definition validKey (v : value) : bool :=
  match v with
  | Some (JString s) => (64 <=? String.length s)%nat
  | _ => false
  end.

Definition isText (j : JSON) : bool :=
  match j with
  | JString _ => true
  | _ => false
  end.

(** "[targets], if present, is a sequence of text identifiers". *)
Definition validTargets (v : value) : bool :=
  match v with
  | None => true
  | Some (JArray ts) => forallb isText ts
  | Some _ => false
  end.

(** The three fields of one entry of [delegations] that the checks look
    at. *)
Definition entryPubkey (entry : JSON) : value :=
  prop (prop (Some entry) "delegation") "pubkey".
Definition entryTargets (entry : JSON) : value :=
  prop (prop (Some entry) "delegation") "targets".
Definition entrySignature (entry : JSON) : value :=
  prop (Some entry) "signature".

(** Writing a property: [Some j] sets it, [None] deletes it. *)
Fixpoint remove_field {A} (k : string) (fields : list (string * A))
    : list (string * A) :=
  match fields with
  | [] => []
  | (k', v) :: rest =>
      if String.eqb k k' then remove_field k rest
      else (k', v) :: remove_field k rest
  end.

Definition set_field {A} (k : string) (v : option A)
    (fields : list (string * A)) : list (string * A) :=
  match v with
  | Some j => (k, j) :: remove_field k fields
  | None => remove_field k fields
  end.

(** The same input with other [expiration] values: [withExpiration v]
    rewrites one entry of [delegations], [replaceExpirations vs] the
    leading entries, one value each. An input that does not have the
    shape is left as it is. *)
Definition withExpiration (v : value) (entry : JSON) : JSON :=
  match entry with
  | JObject fs =>
      match assoc "delegation" fs with
      | Some (JObject ds) =>
          JObject (set_field "delegation"
                     (Some (JObject (set_field "expiration" v ds))) fs)
      | _ => entry
      end
  | _ => entry
  end.

Fixpoint withExpirations (vs : list value) (items : list JSON) : list JSON :=
  match vs, items with
  | v :: vs', entry :: items' =>
      withExpiration v entry :: withExpirations vs' items'
  | _, _ => items
  end.

Definition replaceExpirations (vs : list value) (parsed : JSON) : JSON :=
  match parsed with
  | JObject fs =>
      match assoc "delegations" fs with
      | Some (JArray items) =>
          JObject (set_field "delegations"
                     (Some (JArray (withExpirations vs items))) fs)
      | _ => parsed
      end
  | _ => parsed
  end.

(** ** Collaborators *)

(** [Principal] of the agent package, through the two operations this
    module calls: [Principal.fromText(t)], which may throw on a text it
    cannot decode, and [p.toText()]. *)
Class PrincipalText (Principal : Type) : Type := {
  fromText : string -> result Principal;
  toText : Principal -> string
}.

(** [requestIdOf(record)]: the canonical request-id digest, an [async]
    function of the agent package, taken as given for each kind of record
    it is applied to. *)
Class RequestId (A : Type) : Type :=
  requestIdOf : A -> Promise BinaryBlob.

(** [interface PublicKey { toDer(): DerEncodedBlob }] *)
Record PublicKey : Type := {
  toDer : DerEncodedBlob
}.

(** [abstract class SignIdentity]: [getPublicKey()] and the [async]
    [sign(blob)]. *)
Record SignIdentity : Type := {
  getPublicKey : PublicKey;
  sign : BinaryBlob -> Promise BinaryBlob
}.

(** [new TextEncoder().encode(text)] of an ASCII text. *)
Definition encode (text : string) : list byte := list_byte_of_string text.

(** ['\x1Aic-request-auth-delegation'] and ['\x0Aic-request']: the first
    character has code 26, and 10. *)
Definition domainSeparator : list byte :=
  encode (String "026" "ic-request-auth-delegation").

Definition requestDomainSeparator : list byte :=
  encode (String "010" "ic-request").

(** ** Delegations and chains *)

Section DelegationDefinitions.

Context {Principal : Type} `{PrincipalText Principal}.

Record Delegation : Type := {
  pubkey : BinaryBlob;
  expiration : BigNumber;
  targets : option (list Principal)
}.

Record SignedDelegation : Type := {
  delegation : Delegation;
  signature : BinaryBlob
}.

Context `{RequestId Delegation}.

(** The signature is calculated by signing the concatenation of the domain
    separator and the message. *)
Definition signDelegation (innerDelegation : Delegation)
    (identity : SignIdentity) : Promise BinaryBlob :=
  await! id <- requestIdOf innerDelegation ;;
  sign identity (blobFromUint8Array (domainSeparator ++ id)).

Definition parseBlob (v : value) : result BinaryBlob :=
  match v with
  | Some (JString s) =>
      if (String.length s <? 64)%nat
      then Throw (Error "Invalid public key.")
      else Ok (blobFromHex s)
  | _ => Throw (Error "Invalid public key.")
  end.

Definition _createSingleDelegation (from : SignIdentity) (to : PublicKey)
    (expiration : Date) (targets : option (list Principal))
    : Promise SignedDelegation :=
  let delegation := {|
    pubkey := toDer to;
    expiration := times (BigNumber_of (valueOf expiration))
                        (BigNumber_of (Num 1000000));
    targets := targets
  |} in
  await! signature <- signDelegation delegation from ;;
  Resolved {| delegation := delegation; signature := signature |}.

Record DelegationChain : Type := {
  delegations : list SignedDelegation;
  publicKey : DerEncodedBlob
}.

(** [options: { previous?: DelegationChain }] *)
Record CreateOptions : Type := {
  previous : option DelegationChain
}.

(** The default of [create]'s [expiration] parameter, for a caller that
    leaves it out: [new Date(Date.now() + 15 * 60 * 1000)]. *)
Definition defaultExpiration (now : Z) : Date :=
  DateOf (now + 15 * 60 * 1000).

(** [options.previous?.delegations || []] and
    [options.previous?.publicKey || from.getPublicKey().toDer()]: an array
    and a buffer are truthy whatever they hold, so the right operand is
    taken exactly when there is no previous chain. *)
Definition create (from : SignIdentity) (to : PublicKey) (expiration : Date)
    (options : CreateOptions) : Promise DelegationChain :=
  await! delegation <- _createSingleDelegation from to expiration None ;;
  Resolved {|
    delegations :=
      match previous options with
      | Some chain => delegations chain
      | None => []
      end ++ [delegation];
    publicKey :=
      match previous options with
      | Some chain => publicKey chain
      | None => toDer (getPublicKey from)
      end
  |}.

(** The callback of [targets.map] in [fromJSON]. *)
Definition parseTarget (t : JSON) : result Principal :=
  match t with
  | JString s => fromText s
  | _ => Throw (Error "Invalid target.")
  end.

(** The callback of [delegations.map] in [fromJSON]. The fields of the
    object literal are evaluated in the order they are written;
    [...(targets && { targets: ... })] adds the field when [targets] is an
    array and nothing when it is [undefined]. *)
Definition parseSignedDelegation (signedDelegation : JSON)
    : result SignedDelegation :=
  _ <- destructure (Some signedDelegation) ;;
  let delegation := prop (Some signedDelegation) "delegation" in
  let signature := prop (Some signedDelegation) "signature" in
  _ <- destructure delegation ;;
  let pubkey := prop delegation "pubkey" in
  let expiration := prop delegation "expiration" in
  let targets := prop delegation "targets" in
  _ <- (if negb (isUndefined targets) && negb (isArray targets)
        then Throw (Error "Invalid targets.")
        else Ok tt) ;;
  pk <- parseBlob pubkey ;;
  exp <- BigNumber_base16 expiration ;;
  tg <- match targets with
        | Some (JArray ts) =>
            ps <- mapM parseTarget ts ;;
            Ok (Some ps)
        | _ => Ok None
        end ;;
  sg <- parseBlob signature ;;
  Ok {| delegation := {| pubkey := pk; expiration := exp; targets := tg |};
        signature := sg |}.

(** [DelegationChain.fromJSON(json)], from the value [JSON.parse(json)]
    returns. *)
Definition fromJSON (parsed : JSON) : result DelegationChain :=
  _ <- destructure (Some parsed) ;;
  let publicKey := prop (Some parsed) "publicKey" in
  let delegations := prop (Some parsed) "delegations" in
  match delegations with
  | Some (JArray items) =>
      parsedDelegations <- mapM parseSignedDelegation items ;;
      pk <- parseBlob publicKey ;;
      Ok {| delegations := parsedDelegations;
            publicKey := derBlobFromBlob pk |}
  | _ => Throw (Error "Invalid delegations.")
  end.

(** The own properties an array of texts gives when it is spread into an
    object literal: one per index, named by the index in decimal. *)
Fixpoint spreadArray (index : nat) (texts : list string)
    : list (string * JSON) :=
  match texts with
  | [] => []
  | t :: rest =>
      (DecimalString.NilZero.string_of_uint (Nat.to_uint index), JString t)
        :: spreadArray (S index) rest
  end.

(** The object [toJSON] builds for one delegation:
    [{ expiration, pubkey, ...(targets && targets.map(p => p.toText())) }].
    The spread operand is the array of texts itself (or [undefined], which
    spreads to nothing). Index-named properties come first when the
    object's properties are listed. *)
Definition delegationToJSON (d : Delegation) : JSON :=
  JObject (
    match targets d with
    | Some ps => spreadArray 0 (map toText ps)
    | None => []
    end ++
    [ ("expiration", JString (toString16 (expiration d)));
      ("pubkey", JString (toHex (pubkey d))) ]).

Definition signedDelegationToJSON (signedDelegation : SignedDelegation)
    : JSON :=
  JObject [
    ("delegation", delegationToJSON (delegation signedDelegation));
    ("signature", JString (toHex (signature signedDelegation))) ].

(** [chain.toJSON()], as the tree [JSON.stringify] writes and
    [JSON.parse] reads back. *)
Definition toJSON (chain : DelegationChain) : JSON :=
  JObject [
    ("delegations", JArray (map signedDelegationToJSON (delegations chain)));
    ("publicKey", JString (toHex (publicKey chain))) ].

(** ** Delegation identities *)

(** [class DelegationIdentity extends SignIdentity] *)
Record DelegationIdentity : Type := {
  _inner : SignIdentity;
  _delegation : DelegationChain
}.

Definition fromDelegation (key : SignIdentity) (delegation : DelegationChain)
    : DelegationIdentity :=
  {| _inner := key; _delegation := delegation |}.

Definition getDelegation (self : DelegationIdentity) : DelegationChain :=
  _delegation self.

Definition DelegationIdentity_getPublicKey (self : DelegationIdentity)
    : PublicKey :=
  {| toDer := publicKey (_delegation self) |}.

Definition DelegationIdentity_sign (self : DelegationIdentity)
    (blob : BinaryBlob) : Promise BinaryBlob :=
  sign (_inner self) blob.

(** A delegation identity is itself a [SignIdentity]. *)
Definition asSignIdentity (self : DelegationIdentity) : SignIdentity :=
  {| getPublicKey := DelegationIdentity_getPublicKey self;
     sign := DelegationIdentity_sign self |}.

Context {Body Field : Type} `{RequestId Body}.

(** [HttpAgentRequest]: a record with a [body] and other fields, which
    [const { body, ...fields } = request] takes apart. *)
Record HttpAgentRequest : Type := {
  body : Body;
  fields : list (string * Field)
}.

(** The body [transformRequest] puts in place of the original one. *)
Record SignedBody : Type := {
  content : Body;
  sender_sig : BinaryBlob;
  sender_delegation : list SignedDelegation;
  sender_pubkey : DerEncodedBlob
}.

(** [{ ...fields, body: { ... } }] *)
Record TransformedRequest : Type := {
  other_fields : list (string * Field);
  signed_body : SignedBody
}.

Definition transformRequest (self : DelegationIdentity)
    (request : HttpAgentRequest) : Promise TransformedRequest :=
  let body := body request in
  let fields := fields request in
  await! requestId <- requestIdOf body ;;
  await! sig <- DelegationIdentity_sign self
                  (blobFromUint8Array (requestDomainSeparator ++ requestId)) ;;
  Resolved {|
    other_fields := fields;
    signed_body := {|
      content := body;
      sender_sig := sig;
      sender_delegation := delegations (_delegation self);
      sender_pubkey := publicKey (_delegation self)
    |}
  |}.

(** ** Vocabulary of the statements *)

Definition unrestricted (signedDelegation : SignedDelegation) : Prop :=
  targets (delegation signedDelegation) = None.

(** A chain made by [create] alone: started without a previous chain, or
    made from a chain that was itself made by [create]. *)
Inductive built_by_create : DelegationChain -> Prop :=
| built_first (from : SignIdentity) (to : PublicKey) (expiration : Date)
    (chain : DelegationChain) :
    create from to expiration {| previous := None |} = Resolved chain ->
    built_by_create chain
| built_next (from : SignIdentity) (to : PublicKey) (expiration : Date)
    (earlier chain : DelegationChain) :
    built_by_create earlier ->
    create from to expiration {| previous := Some earlier |} = Resolved chain ->
    built_by_create chain.

(** Two signed delegations that differ at most in [expiration]. *)
Definition same_but_expiration (a b : SignedDelegation) : Prop :=
  pubkey (delegation a) = pubkey (delegation b)
  /\ targets (delegation a) = targets (delegation b)
  /\ signature a = signature b.

End DelegationDefinitions.

(** ** A small world to run the definitions in

    Principals named by their text, a digest that lists what it was given,
    and signers that tag the signed bytes with their own key. *)

#[global] Instance text_principals : PrincipalText string := {
  fromText := fun t => Ok t;
  toText := fun p => p
}.

#[global] Instance delegation_digest : RequestId (@Delegation string) :=
  fun d => Resolved (pubkey d ++ encode (toString16 (expiration d))).

#[global] Instance bytes_digest : RequestId (list byte) :=
  fun body => Resolved (rev body).

Definition key_of (b : byte) : BinaryBlob := repeat b 32.

Definition signer_of (b : byte) : SignIdentity := {|
  getPublicKey := {| toDer := key_of b |};
  sign := fun blob => Resolved (key_of b ++ blob ++ key_of b)
|}.

Definition root : SignIdentity := signer_of x01.
Definition middle : SignIdentity := signer_of x02.
Definition bottom : SignIdentity := signer_of x03.

(** One delegation to [middle], signed by [root], limited to two
    recipients. *)
Definition restricted_chain : @DelegationChain string := {|
  delegations := [ {|
    delegation := {| pubkey := key_of x02;
                     expiration := BigInt 255;
                     targets := Some ["aaaaa-aa"; "2vxsx-fae"] |};
    signature := key_of x01 ++ key_of x01 |} ];
  publicKey := key_of x01
|}.

(** The same without recipients. *)
Definition open_chain : @DelegationChain string := {|
  delegations := [ {|
    delegation := {| pubkey := key_of x02;
                     expiration := BigInt 255;
                     targets := None |};
    signature := key_of x01 ++ key_of x01 |} ];
  publicKey := key_of x01
|}.

(** A mock signer: it has a key of its own and answers every request to
    sign with the same three bytes. *)
Definition mock : SignIdentity := {|
  getPublicKey := {| toDer := key_of x09 |};
  sign := fun _ => Resolved [x01; x02; x03]
|}.

(** The chain [create] makes when [mock] delegates to [middle] until the
    date of 1000 milliseconds. *)
Definition mock_chain : @DelegationChain string := {|
  delegations := [ {|
    delegation := {| pubkey := key_of x02;
                     expiration := BigInt 1000000000;
                     targets := None |};
    signature := [x01; x02; x03] |} ];
  publicKey := key_of x09
|}.

(** A signer whose [sign] fails. *)
Definition unavailable : SignIdentity := {|
  getPublicKey := {| toDer := key_of x08 |};
  sign := fun _ => Rejected (Rejection "user cancelled")
|}.

(** What [signer_of b] returns for a delegation, given the digest above. *)
Definition signature_by (b : byte) (d : @Delegation string) : BinaryBlob :=
  key_of b
  ++ (domainSeparator ++ pubkey d ++ encode (toString16 (expiration d)))
  ++ key_of b.

Definition signed_by (b : byte) (d : @Delegation string)
    : @SignedDelegation string :=
  {| delegation := d; signature := signature_by b d |}.

(** The delegation [create] builds for a delegate key and a date of 1000
    milliseconds. *)
Definition delegation_to (b : byte) : @Delegation string :=
  {| pubkey := key_of b; expiration := BigInt 1000000000; targets := None |}.

(** [root] delegates to [middle]; then [middle] delegates to [bottom]. *)
Definition one_step_chain : @DelegationChain string := {|
  delegations := [ signed_by x01 (delegation_to x02) ];
  publicKey := key_of x01
|}.

Definition two_step_chain : @DelegationChain string := {|
  delegations := [ signed_by x01 (delegation_to x02);
                   signed_by x02 (delegation_to x03) ];
  publicKey := key_of x01
|}.

(** A request with a two-byte body and one other field. *)
Definition call_request : @HttpAgentRequest (list byte) string := {|
  body := [x2a; x07];
  fields := [ ("endpoint", "call") ]
|}.

(** [restricted_chain] in the wire format, with a [targets] property. *)
Definition restricted_chain_wire : JSON :=
  JObject [
    ("publicKey", JString (toHex (key_of x01)));
    ("delegations", JArray [
       JObject [
         ("delegation", JObject [
            ("pubkey", JString (toHex (key_of x02)));
            ("expiration", JString "ff");
            ("targets", JArray [ JString "aaaaa-aa"; JString "2vxsx-fae" ]) ]);
         ("signature", JString (toHex (key_of x01 ++ key_of x01))) ] ]) ].

(** [restricted_chain] as [toJSON] writes it. *)
Definition restricted_chain_json : JSON :=
  JObject [
    ("delegations", JArray [
       JObject [
         ("delegation", JObject [
            ("0", JString "aaaaa-aa");
            ("1", JString "2vxsx-fae");
            ("expiration", JString "ff");
            ("pubkey", JString (toHex (key_of x02))) ]);
         ("signature", JString (toHex (key_of x01 ++ key_of x01))) ] ]);
    ("publicKey", JString (toHex (key_of x01))) ].

(** An object with a [toString] property of its own, as JSON can hold
    one. *)
Definition unprintable : JSON := JObject [ ("toString", JNull) ].

(** What [toJSON] writes for [open_chain], with [unprintable] as the
    [expiration]. *)
Definition open_chain_unprintable : JSON :=
  JObject [
    ("delegations", JArray [
       JObject [
         ("delegation", JObject [
            ("expiration", unprintable);
            ("pubkey", JString (toHex (key_of x02))) ]);
         ("signature", JString (toHex (key_of x01 ++ key_of x01))) ] ]);
    ("publicKey", JString (toHex (key_of x01))) ].

(** [open_chain] with an expiration that is not a number. *)
Definition undated_chain : @DelegationChain string := {|
  delegations := [ {|
    delegation := {| pubkey := key_of x02;
                     expiration := BigNaN;
                     targets := None |};
    signature := key_of x01 ++ key_of x01 |} ];
  publicKey := key_of x01
|}.

(** ** More vocabulary: what is accepted, what is read, how chains grow *)

Definition isOk {A} (r : result A) : bool :=
  match r with
  | Ok _ => true
  | Throw _ => false
  end.

Definition entryExpiration (entry : JSON) : value :=
  prop (prop (Some entry) "delegation") "expiration".

(** A blob whose hex text has at least 64 characters. *)
Definition longEnough (blob : BinaryBlob) : bool :=
  (32 <=? List.length blob)%nat.

(** A signer that returns the bytes it is asked to sign, so that what it
    was asked to sign can be read from the signature. *)
Definition recorder (key : DerEncodedBlob) : SignIdentity := {|
  getPublicKey := {| toDer := key |};
  sign := fun blob => Resolved blob
|}.

Section MoreDefinitions.

Context {Principal : Type} {PT : PrincipalText Principal}.
Context {RD : RequestId (@Delegation Principal)}.

(** The checks of [fromJSON], as a test on the parsed input. *)
Definition targetParses (t : JSON) : bool :=
  match t with
  | JString s => isOk (fromText s)
  | _ => false
  end.

Definition targetsParse (v : value) : bool :=
  match v with
  | None => true
  | Some (JArray ts) => forallb targetParses ts
  | Some _ => false
  end.

Definition acceptsEntry (entry : JSON) : bool :=
  validKey (entryPubkey entry)
  && printable (entryExpiration entry)
  && targetsParse (entryTargets entry)
  && validKey (entrySignature entry).

Definition accepts (parsed : JSON) : bool :=
  match prop (Some parsed) "delegations" with
  | Some (JArray items) =>
      forallb acceptsEntry items
      && validKey (prop (Some parsed) "publicKey")
  | _ => false
  end.



(** A signed delegation, and a chain, with the targets taken away. *)
Definition withoutTargets (sd : @SignedDelegation Principal)
    : @SignedDelegation Principal :=
  {| delegation := {| pubkey := pubkey (delegation sd);
                      expiration := expiration (delegation sd);
                      targets := None |};
     signature := signature sd |}.

Definition chainWithoutTargets (chain : @DelegationChain Principal)
    : @DelegationChain Principal :=
  {| delegations := map withoutTargets (delegations chain);
     publicKey := publicKey chain |}.

Definition allLongEnough (chain : @DelegationChain Principal) : bool :=
  forallb (fun sd => longEnough (pubkey (delegation sd))
                     && longEnough (signature sd))
          (delegations chain)
  && longEnough (publicKey chain).

(** [chain_of first keys chain]: [chain] was made by [create] alone,
    starting with the signer [first], delegating in turn to each of
    [keys]. Who signs each later step is left open, as [create] leaves
    it. *)
Inductive chain_of (first : SignIdentity)
    : list PublicKey -> @DelegationChain Principal -> Prop :=
| chain_start (to : PublicKey) (expiration : Date) chain :
    create first to expiration {| previous := None |} = Resolved chain ->
    chain_of first [to] chain
| chain_step (from : SignIdentity) (to : PublicKey) (expiration : Date)
    keys earlier chain :
    chain_of first keys earlier ->
    create from to expiration {| previous := Some earlier |} = Resolved chain ->
    chain_of first (keys ++ [to]) chain.

End MoreDefinitions.

(** [restricted_chain_wire] with a property nobody reads at each level. *)
Definition annotated_wire : JSON :=
  JObject [
    ("version", JNumber "1");
    ("publicKey", JString (toHex (key_of x01)));
    ("delegations", JArray [
       JObject [
         ("comment", JString "first");
         ("delegation", JObject [
            ("pubkey", JString (toHex (key_of x02)));
            ("expiration", JString "ff");
            ("note", JNull);
            ("targets", JArray [ JString "aaaaa-aa"; JString "2vxsx-fae" ]) ]);
         ("signature", JString (toHex (key_of x01 ++ key_of x01))) ] ]) ].

(** An input whose second entry has a short signature and whose root key
    is short as well. *)
Definition second_entry_bad : JSON :=
  JObject [
    ("publicKey", JString "01");
    ("delegations", JArray [
       JObject [
         ("delegation", JObject [
            ("pubkey", JString (toHex (key_of x02)));
            ("expiration", JString "ff") ]);
         ("signature", JString (toHex (key_of x01 ++ key_of x01))) ];
       JObject [
         ("delegation", JObject [
            ("pubkey", JString (toHex (key_of x03)));
            ("expiration", JString "ff");
            ("targets", JNumber "7") ]);
         ("signature", JString "0202") ];
       JNull ]) ].

(** [open_chain] with an empty list of recipients instead of none. *)
Definition empty_targets_chain : @DelegationChain string := {|
  delegations := [ {|
    delegation := {| pubkey := key_of x02;
                     expiration := BigInt 255;
                     targets := Some [] |};
    signature := key_of x01 ++ key_of x01 |} ];
  publicKey := key_of x01
|}.

(** * Facts *)

(** ** The error monad *)

Lemma bind_result_Ok {A B} (r : result A) (k : A -> result B) (b : B) :
  bind_result r k = Ok b -> exists a, r = Ok a /\ k a = Ok b.
Proof.
  destruct r as [a | e]; simpl; intros Hk.
  - exists a. split; [reflexivity | exact Hk].
  - discriminate Hk.
Qed.

Lemma mapM_Ok_cons {A B} (f : A -> result B) x xs ys :
  mapM f (x :: xs) = Ok ys ->
  exists y ys', ys = y :: ys' /\ f x = Ok y /\ mapM f xs = Ok ys'.
Proof.
  simpl. intros Hm.
  apply bind_result_Ok in Hm. destruct Hm as (y & Hy & Hm).
  apply bind_result_Ok in Hm. destruct Hm as (ys' & Hys & Hm).
  injection Hm as <-. exists y, ys'. auto.
Qed.

Lemma mapM_Ok_In {A B} (f : A -> result B) xs ys x :
  mapM f xs = Ok ys -> In x xs -> exists y, f x = Ok y.
Proof.
  revert ys. induction xs as [| x0 xs IH]; intros ys Hm Hin.
  - destruct Hin.
  - apply mapM_Ok_cons in Hm. destruct Hm as (y & ys' & _ & Hy & Hrest).
    destruct Hin as [<- | Hin].
    + exists y. exact Hy.
    + eapply IH; eassumption.
Qed.

(** ** Hex text *)

Lemma hexOfByte_length b : String.length (hexOfByte b) = 2%nat.
Proof. reflexivity. Qed.

Lemma length_append (s t : string) :
  String.length (s ++ t)%string = (String.length s + String.length t)%nat.
Proof. induction s as [| c s IH]; simpl; [reflexivity | now rewrite IH]. Qed.

Lemma toHex_length (blob : BinaryBlob) :
  String.length (toHex blob) = (2 * List.length blob)%nat.
Proof.
  induction blob as [| b rest IH]; [reflexivity |].
  cbn [toHex]. rewrite length_append, hexOfByte_length, IH. simpl. lia.
Qed.

Lemma blobFromHex_hexOfByte b (rest : string) :
  blobFromHex (hexOfByte b ++ rest)%string = b :: blobFromHex rest.
Proof. destruct b; reflexivity. Qed.

Lemma blobFromHex_toHex (blob : BinaryBlob) : blobFromHex (toHex blob) = blob.
Proof.
  induction blob as [| b rest IH]; [reflexivity |].
  cbn [toHex]. rewrite blobFromHex_hexOfByte, IH. reflexivity.
Qed.

Lemma parseBlob_toHex (blob : BinaryBlob) :
  (32 <= List.length blob)%nat ->
  parseBlob (Some (JString (toHex blob))) = Ok blob.
Proof.
  intros Hlen. unfold parseBlob. rewrite toHex_length.
  destruct (Nat.ltb_spec (2 * List.length blob) 64) as [Hlt | _]; [lia |].
  now rewrite blobFromHex_toHex.
Qed.

(** ** Base-16 text of a big number *)

Lemma digits16_uint_acc (d : Hexadecimal.uint) (p : positive) :
  digits16 (NilEmpty.string_of_uint d) (N.pos p)
  = Some (N.pos (Pos.of_hex_uint_acc d p)).
Proof.
  revert p. induction d; intros p; cbn [NilEmpty.string_of_uint digits16];
    try reflexivity; cbn [indexOf hex_alphabet Ascii.eqb Bool.eqb option_map];
    simpl; apply IHd.
Qed.

Lemma digits16_uint (d : Hexadecimal.uint) :
  digits16 (NilEmpty.string_of_uint d) 0 = Some (Pos.of_hex_uint d).
Proof.
  induction d; cbn [NilEmpty.string_of_uint digits16 Pos.of_hex_uint];
    try reflexivity;
    cbn [indexOf hex_alphabet Ascii.eqb Bool.eqb option_map]; simpl;
    first [ exact IHd | apply digits16_uint_acc ].
Qed.

Lemma digits16_pos (p : positive) :
  digits16 (NilZero.string_of_uint (Pos.to_hex_uint p)) 0 = Some (N.pos p).
Proof.
  pose proof (HexadecimalPos.Unsigned.of_to p) as Hp.
  destruct (Pos.to_hex_uint p) eqn:Hd;
    try (rewrite <- Hp; apply (digits16_uint)).
  discriminate Hp.
Qed.

Lemma string_of_uint_no_sign (d : Hexadecimal.uint) :
  match NilZero.string_of_uint d with
  | String "-" _ => False
  | _ => True
  end.
Proof. destruct d; exact I. Qed.

Lemma BigNumber_of_text16_toString16 (x : BigNumber) :
  BigNumber_of_text16 (toString16 x) = x.
Proof.
  destruct x as [[| p | p] |]; try reflexivity.
  - unfold BigNumber_of_text16. cbn [toString16].
    unfold Z.to_hex_int, NilZero.string_of_int.
    pose proof (string_of_uint_no_sign (Pos.to_hex_uint p)) as Hs.
    pose proof (digits16_pos p) as Hd.
    destruct (NilZero.string_of_uint (Pos.to_hex_uint p)) as [| c s] eqn:Estr.
    + rewrite Hd. reflexivity.
    + destruct (Ascii.eqb_spec c "-"%char) as [-> | Hc]; [destruct Hs |].
      assert (Hneg : match String c s with
                     | String "-" _ => true
                     | _ => false
                     end = false).
      { destruct c as [[] [] [] [] [] [] [] []]; try reflexivity.
        now destruct Hc. }
      assert (Hbody : match String c s with
                      | String "-" rest => rest
                      | _ => String c s
                      end = String c s).
      { destruct c as [[] [] [] [] [] [] [] []]; try reflexivity.
        now destruct Hc. }
      rewrite Hneg, Hbody, Hd. reflexivity.
  - unfold BigNumber_of_text16. cbn [toString16].
    unfold Z.to_hex_int, NilZero.string_of_int.
    rewrite digits16_pos. reflexivity.
Qed.

Lemma BigNumber_base16_toString16 (x : BigNumber) :
  BigNumber_base16 (Some (JString (toString16 x))) = Ok x.
Proof.
  unfold BigNumber_base16. cbn [String_of_value JS_String bind_result].
  now rewrite BigNumber_of_text16_toString16.
Qed.

(** ** Properties of an object *)

Lemma assoc_remove_other {A} (k k' : string) (fields : list (string * A)) :
  String.eqb k k' = false -> assoc k (remove_field k' fields) = assoc k fields.
Proof.
  intros Hk. induction fields as [| [k0 v] rest IH]; [reflexivity |].
  cbn [remove_field assoc].
  destruct (String.eqb_spec k' k0) as [<- | Hne].
  - rewrite Hk. exact IH.
  - cbn [assoc]. destruct (String.eqb k k0); [reflexivity | exact IH].
Qed.

Lemma assoc_set_other {A} (k k' : string) (v : option A) fields :
  String.eqb k k' = false -> assoc k (set_field k' v fields) = assoc k fields.
Proof.
  intros Hk. destruct v as [j |]; cbn [set_field assoc].
  - rewrite Hk. now apply assoc_remove_other.
  - now apply assoc_remove_other.
Qed.

Lemma assoc_remove_same {A} (k : string) (fields : list (string * A)) :
  assoc k (remove_field k fields) = None.
Proof.
  induction fields as [| [k0 v] rest IH]; [reflexivity |].
  cbn [remove_field].
  destruct (String.eqb k k0) eqn:Hk; [exact IH |].
  cbn [assoc]. now rewrite Hk.
Qed.

Lemma assoc_set_same {A} (k : string) (v : option A) fields :
  assoc k (set_field k v fields) = v.
Proof.
  destruct v as [j |]; cbn [set_field assoc].
  - now rewrite String.eqb_refl.
  - apply assoc_remove_same.
Qed.

(** ** What [parseBlob] accepts *)

Lemma parseBlob_Ok_valid (v : value) (blob : BinaryBlob) :
  parseBlob v = Ok blob -> validKey v = true.
Proof.
  destruct v as [[| | | s | |] |]; cbn [parseBlob validKey];
    try discriminate.
  destruct (Nat.ltb_spec (String.length s) 64); [discriminate |].
  intros _. now apply Nat.leb_le.
Qed.

Lemma parseBlob_invalid (v : value) :
  validKey v = false -> parseBlob v = Throw (Error "Invalid public key.").
Proof.
  destruct v as [[| | | s | |] |]; cbn [parseBlob validKey];
    try reflexivity.
  intros Hs. apply Nat.leb_gt in Hs.
  destruct (Nat.ltb_spec (String.length s) 64); [reflexivity | lia].
Qed.

(** ** Signing, building and wrapping *)

Section DelegationFacts.

Context {Principal : Type} {PT : PrincipalText Principal}.
Context {RD : RequestId (@Delegation Principal)}.
Context {Body Field : Type} {RB : RequestId Body}.

Lemma await_Resolved {A B} (p : Promise A) (k : A -> Promise B) (b : B) :
  await p k = Resolved b -> exists a, p = Resolved a /\ k a = Resolved b.
Proof.
  destruct p as [a | e]; simpl; intros Hk.
  - exists a. split; [reflexivity | exact Hk].
  - discriminate Hk.
Qed.

Lemma signDelegation_Resolved (d : Delegation) (from : SignIdentity) sig :
  signDelegation d from = Resolved sig ->
  exists id, requestIdOf d = Resolved id
             /\ sign from (domainSeparator ++ id) = Resolved sig.
Proof.
  unfold signDelegation. intros Hs.
  apply await_Resolved in Hs. destruct Hs as (id & Hid & Hsig).
  exists id. split; assumption.
Qed.

Lemma createSingleDelegation_Resolved from to expiration tg (sd : @SignedDelegation Principal) :
  _createSingleDelegation from to expiration tg = Resolved sd ->
  delegation sd = {| pubkey := toDer to;
                     expiration := times (BigNumber_of (valueOf expiration))
                                         (BigNumber_of (Num 1000000));
                     targets := tg |}
  /\ signDelegation (delegation sd) from = Resolved (signature sd).
Proof.
  unfold _createSingleDelegation. intros Hc.
  apply await_Resolved in Hc. destruct Hc as (sig & Hsig & Hres).
  injection Hres as <-. simpl. split; [reflexivity | exact Hsig].
Qed.

Lemma create_Resolved from to expiration options (chain : @DelegationChain Principal) :
  create from to expiration options = Resolved chain ->
  exists sd,
    _createSingleDelegation from to expiration None = Resolved sd
    /\ delegations chain =
         match previous options with
         | Some earlier => delegations earlier
         | None => []
         end ++ [sd]
    /\ publicKey chain =
         match previous options with
         | Some earlier => publicKey earlier
         | None => toDer (getPublicKey from)
         end.
Proof.
  unfold create. intros Hc.
  apply await_Resolved in Hc. destruct Hc as (sd & Hsd & Hres).
  injection Hres as <-. exists sd. simpl. auto.
Qed.

(** C5. The signature kept in a signed delegation is what the delegating
    signer returns for the byte [0x1A], the ASCII text
    [ic-request-auth-delegation] and the request-id digest of the
    delegation record, in that order: [signDelegation] resolves to it, and
    so does the [signature] field of what [_createSingleDelegation]
    returns for the record it builds. *)
Theorem signature_is_sign_of_separator_and_digest
    (d : @Delegation Principal) (from : SignIdentity) (id sig : BinaryBlob) :
  requestIdOf d = Resolved id ->
  sign from (x1a :: encode "ic-request-auth-delegation" ++ id) = Resolved sig ->
  signDelegation d from = Resolved sig
  /\ forall to when tg,
       d = {| pubkey := toDer to;
              expiration := times (BigNumber_of (valueOf when))
                                  (BigNumber_of (Num 1000000));
              targets := tg |} ->
       _createSingleDelegation from to when tg
       = Resolved {| delegation := d; signature := sig |}.
Proof.
  intros Hid Hsig.
  assert (Hsd : signDelegation d from = Resolved sig).
  { unfold signDelegation. rewrite Hid. simpl. exact Hsig. }
  split; [exact Hsd |].
  intros to when tg Hd. unfold _createSingleDelegation.
  rewrite <- Hd, Hsd. reflexivity.
Qed.

(** C4. When the new delegation is signed, [create] resolves; with a
    previous chain of [n] entries the result has [n + 1] entries, its first
    [n] are the previous ones, the new signed delegation is the last, and
    the root key is the previous chain's; with no previous chain the result
    holds the new signed delegation alone and the root key is [from]'s
    public key in DER form. *)
Theorem create_appends_and_keeps_root from to when options (sd : @SignedDelegation Principal) :
  _createSingleDelegation from to when None = Resolved sd ->
  exists chain : @DelegationChain Principal,
    create from to when options = Resolved chain
    /\ match previous options with
       | Some earlier =>
           delegations chain = delegations earlier ++ [sd]
           /\ List.length (delegations chain)
              = S (List.length (delegations earlier))
           /\ firstn (List.length (delegations earlier)) (delegations chain)
              = delegations earlier
           /\ publicKey chain = publicKey earlier
       | None =>
           delegations chain = [sd]
           /\ publicKey chain = toDer (getPublicKey from)
       end.
Proof.
  intros Hsd. unfold create. rewrite Hsd. cbn [await].
  eexists. split; [reflexivity |].
  destruct (previous options) as [earlier |]; cbn [delegations publicKey].
  - repeat split.
    + rewrite length_app. simpl. lia.
    + rewrite firstn_app, Nat.sub_diag, firstn_all. simpl.
      apply app_nil_r.
  - split; reflexivity.
Qed.

(** C6. The public key of a delegation identity is the root key of its
    chain: [toDer()] returns [publicKey] of the chain, which is not the
    inner signer's key when the two differ. *)
Theorem delegation_identity_shows_root_key (inner : SignIdentity)
    (chain : @DelegationChain Principal) :
  publicKey chain <> toDer (getPublicKey inner) ->
  toDer (DelegationIdentity_getPublicKey (fromDelegation inner chain))
  = publicKey chain
  /\ toDer (getPublicKey (asSignIdentity (fromDelegation inner chain)))
     <> toDer (getPublicKey inner).
Proof.
  intros Hdiff. split.
  - reflexivity.
  - cbn [asSignIdentity getPublicKey DelegationIdentity_getPublicKey
         fromDelegation _delegation toDer].
    exact Hdiff.
Qed.

(** C3. When the digest of the body and the inner signer's signature are
    available, [transformRequest] resolves to a record with the fields
    other than [body] as they were, and a body made of the original body,
    the inner signer's signature over the byte [0x0A], the ASCII text
    [ic-request] and the digest, the chain's delegations and the chain's
    root key. *)
Theorem transformRequest_wraps_body (inner : SignIdentity) (chain : @DelegationChain Principal)
    (request : @HttpAgentRequest Body Field) (id sig : BinaryBlob) :
  requestIdOf (body request) = Resolved id ->
  sign inner (x0a :: encode "ic-request" ++ id) = Resolved sig ->
  transformRequest (fromDelegation inner chain) request
  = Resolved {|
      other_fields := fields request;
      signed_body := {|
        content := body request;
        sender_sig := sig;
        sender_delegation := delegations chain;
        sender_pubkey := publicKey chain
      |}
    |}.
Proof.
  intros Hid Hsig. unfold transformRequest. rewrite Hid. cbn [await].
  unfold DelegationIdentity_sign, blobFromUint8Array.
  cbn [fromDelegation _inner _delegation].
  change (requestDomainSeparator ++ id)
    with (x0a :: encode "ic-request" ++ id).
  rewrite Hsig. reflexivity.
Qed.

(** C8. For a date of [ms] milliseconds, the record that is digested,
    signed and kept has [expiration] equal to [ms * 1000000] as an
    unbounded integer; when that product no longer fits a signed 64-bit
    counter the kept value is still the product, not its wrapped image;
    and that signed delegation is what [create] puts in the chain. *)
Theorem expiration_is_exact_nanoseconds (from : SignIdentity) (to : PublicKey)
    (ms : Z) (tg : option (list Principal)) (id sig : BinaryBlob) :
  requestIdOf {| pubkey := toDer to;
                 expiration := BigInt (ms * 1000000);
                 targets := tg |} = Resolved id ->
  sign from (domainSeparator ++ id) = Resolved sig ->
  exists sd : @SignedDelegation Principal,
    _createSingleDelegation from to (DateOf ms) tg = Resolved sd
    /\ expiration (delegation sd) = BigInt (ms * 1000000)
    /\ ((2 ^ 63 <= ms * 1000000)%Z ->
        expiration (delegation sd) <> BigInt (wrap64 (ms * 1000000)))
    /\ (tg = None ->
        forall options, exists chain,
          create from to (DateOf ms) options = Resolved chain
          /\ In sd (delegations chain)).
Proof.
  intros Hid Hsig.
  assert (Hsd : _createSingleDelegation from to (DateOf ms) tg
                = Resolved {| delegation :=
                                {| pubkey := toDer to;
                                   expiration := BigInt (ms * 1000000);
                                   targets := tg |};
                              signature := sig |}).
  { unfold _createSingleDelegation, signDelegation, blobFromUint8Array.
    cbn [valueOf BigNumber_of times].
    rewrite Hid. cbn [await]. rewrite Hsig. reflexivity. }
  eexists. split; [exact Hsd |]. cbn [delegation expiration].
  split; [reflexivity |]. split.
  - intros Hbig Heq. injection Heq as Heq.
    unfold wrap64 in Heq.
    pose proof (Z.mod_pos_bound (ms * 1000000 + 2 ^ 63) (2 ^ 64)%Z) as Hmod.
    lia.
  - intros -> options. unfold create. rewrite Hsd. cbn [await].
    eexists. split; [reflexivity |]. cbn [delegations].
    apply in_or_app. right. left. reflexivity.
Qed.

(** C9. The signed delegation a call of [create] adds has no [targets],
    and the entries before it are those of the previous chain, so the
    result is unrestricted throughout when the previous chain is; hence a
    chain made by [create] alone holds unrestricted delegations only. *)
Theorem create_only_chains_are_unrestricted :
  (forall from to when options (chain : @DelegationChain Principal),
     create from to when options = Resolved chain ->
     exists sd,
       delegations chain
       = match previous options with
         | Some earlier => delegations earlier
         | None => []
         end ++ [sd]
       /\ unrestricted sd
       /\ ((forall earlier, previous options = Some earlier ->
                            Forall unrestricted (delegations earlier)) ->
           Forall unrestricted (delegations chain)))
  /\ (forall chain : @DelegationChain Principal,
        built_by_create chain -> Forall unrestricted (delegations chain)).
Proof.
  assert (Hstep : forall from to when options
                         (chain : @DelegationChain Principal),
             create from to when options = Resolved chain ->
             exists sd,
               delegations chain
               = match previous options with
                 | Some earlier => delegations earlier
                 | None => []
                 end ++ [sd]
               /\ unrestricted sd).
  { intros from to when options chain Hc.
    apply create_Resolved in Hc. destruct Hc as (sd & Hsd & Hds & _).
    apply createSingleDelegation_Resolved in Hsd. destruct Hsd as (Hd & _).
    exists sd. split; [exact Hds |]. unfold unrestricted. now rewrite Hd. }
  split.
  - intros from to when options chain Hc.
    destruct (Hstep _ _ _ _ _ Hc) as (sd & Hds & Hsd).
    exists sd. repeat split; [exact Hds | exact Hsd |].
    intros Hearlier. rewrite Hds. apply Forall_app. split.
    + destruct (previous options) as [earlier |]; [now apply Hearlier |].
      constructor.
    + constructor; [exact Hsd | constructor].
  - induction 1 as [from to when chain Hc
                   | from to when earlier chain _ IH Hc];
      destruct (Hstep _ _ _ _ _ Hc) as (sd & Hds & Hsd);
      rewrite Hds; cbn [previous]; apply Forall_app; split;
      try (constructor; [exact Hsd | constructor]).
    + constructor.
    + exact IH.
Qed.

End DelegationFacts.

(** ** Reading a chain *)

Section SerializationFacts.

Context {Principal : Type} {PT : PrincipalText Principal}.

Lemma mapM_parseTarget_Ok (ts : list JSON) (ps : list Principal) :
  mapM parseTarget ts = Ok ps -> forallb isText ts = true.
Proof.
  revert ps. induction ts as [| t rest IH]; intros ps Hm; [reflexivity |].
  apply mapM_Ok_cons in Hm. destruct Hm as (p & ps' & _ & Hp & Hrest).
  cbn [forallb]. rewrite (IH _ Hrest).
  destruct t; try discriminate Hp. reflexivity.
Qed.

Lemma parseSignedDelegation_Ok (entry : JSON)
    (sd : @SignedDelegation Principal) :
  parseSignedDelegation entry = Ok sd ->
  validKey (entryPubkey entry) = true
  /\ validTargets (entryTargets entry) = true
  /\ validKey (entrySignature entry) = true.
Proof.
  unfold parseSignedDelegation, entryPubkey, entryTargets, entrySignature.
  intros Hp.
  apply bind_result_Ok in Hp. destruct Hp as (? & ? & Hp).
  apply bind_result_Ok in Hp. destruct Hp as (? & ? & Hp).
  apply bind_result_Ok in Hp. destruct Hp as (? & Hguard & Hp).
  apply bind_result_Ok in Hp. destruct Hp as (pk & Hpk & Hp).
  apply bind_result_Ok in Hp. destruct Hp as (ex & Hex & Hp).
  apply bind_result_Ok in Hp. destruct Hp as (tg & Htg & Hp).
  apply bind_result_Ok in Hp. destruct Hp as (sg & Hsg & _).
  split; [eapply parseBlob_Ok_valid; eassumption |].
  split; [| eapply parseBlob_Ok_valid; eassumption].
  destruct (prop (prop (Some entry) "delegation") "targets")
    as [[| | | | ts |] |]; try discriminate Hguard; [| reflexivity].
  apply bind_result_Ok in Htg. destruct Htg as (ps & Hps & _).
  cbn [validTargets]. eapply mapM_parseTarget_Ok; eassumption.
Qed.

Lemma fromJSON_Ok (parsed : JSON) (chain : @DelegationChain Principal) :
  fromJSON parsed = Ok chain ->
  exists items,
    prop (Some parsed) "delegations" = Some (JArray items)
    /\ mapM parseSignedDelegation items = Ok (delegations chain)
    /\ validKey (prop (Some parsed) "publicKey") = true.
Proof.
  unfold fromJSON. intros Hf.
  apply bind_result_Ok in Hf. destruct Hf as (? & ? & Hf).
  destruct (prop (Some parsed) "delegations") as [[| | | | items |] |];
    try discriminate Hf.
  apply bind_result_Ok in Hf. destruct Hf as (sds & Hsds & Hf).
  apply bind_result_Ok in Hf. destruct Hf as (pk & Hpk & Hf).
  injection Hf as <-. exists items. cbn [delegations].
  repeat split; [exact Hsds |]. eapply parseBlob_Ok_valid; eassumption.
Qed.

(** C7. [fromJSON] throws, and so returns no chain, when [delegations] is
    missing or is not an array; when some entry has a [targets] value that
    is there and is not an array of texts; and when the [pubkey] or the
    [signature] of some entry, or the root [publicKey], is not a text of
    at least 64 characters. [fromJSON] is not [async]: its outcome is a
    [result], the error is thrown by the call itself. *)
Theorem fromJSON_rejects_malformed (parsed : JSON) :
  isArray (prop (Some parsed) "delegations") = false
  \/ (exists items entry,
        prop (Some parsed) "delegations" = Some (JArray items)
        /\ In entry items
        /\ (validTargets (entryTargets entry) = false
            \/ validKey (entryPubkey entry) = false
            \/ validKey (entrySignature entry) = false))
  \/ validKey (prop (Some parsed) "publicKey") = false ->
  exists e, fromJSON (Principal := Principal) parsed = Throw e.
Proof.
  intros Hbad.
  destruct (fromJSON parsed) as [chain | e] eqn:Hf; [| now exists e].
  exfalso. apply fromJSON_Ok in Hf.
  destruct Hf as (items & Hitems & Hentries & Hroot).
  destruct Hbad as [Hnot | [(items' & entry & Hitems' & Hin & Hentry) | Hkey]].
  - rewrite Hitems in Hnot. discriminate Hnot.
  - rewrite Hitems in Hitems'. injection Hitems' as <-.
    destruct (mapM_Ok_In _ _ _ _ Hentries Hin) as (sd & Hsd).
    apply parseSignedDelegation_Ok in Hsd.
    destruct Hsd as (Hpk & Htg & Hsg).
    destruct Hentry as [Hbad | [Hbad | Hbad]]; congruence.
  - congruence.
Qed.

Lemma same_but_expiration_refl (sd : @SignedDelegation Principal) :
  same_but_expiration sd sd.
Proof. repeat split. Qed.

(** An entry that is accepted is accepted again with any [expiration]
    that converts to text. *)
Lemma parseSignedDelegation_withExpiration (v : value) (entry : JSON)
    (sd : @SignedDelegation Principal) :
  parseSignedDelegation entry = Ok sd ->
  printable v = true ->
  exists sd',
    parseSignedDelegation (withExpiration v entry) = Ok sd'
    /\ same_but_expiration sd sd'
    /\ Ok (expiration (delegation sd')) = BigNumber_base16 v.
Proof.
  intros Hsd Hv. unfold parseSignedDelegation in Hsd.
  destruct entry as [| b | r | s | l | fs]; try discriminate Hsd.
  cbn [destructure bind_result prop] in Hsd. cbn [withExpiration].
  destruct (assoc "delegation" fs) as [[| b | r | s | l | ds] |] eqn:Hd;
    cbn [destructure bind_result prop isUndefined isArray negb andb
         parseBlob] in Hsd;
    try discriminate Hsd.
  apply bind_result_Ok in Hsd. destruct Hsd as (u & Hguard & Hsd).
  apply bind_result_Ok in Hsd. destruct Hsd as (pk & Hpk & Hsd).
  apply bind_result_Ok in Hsd. destruct Hsd as (ex & Hex & Hsd).
  apply bind_result_Ok in Hsd. destruct Hsd as (tg & Htg & Hsd).
  apply bind_result_Ok in Hsd. destruct Hsd as (sg & Hsg & Hsd).
  injection Hsd as <-.
  unfold printable in Hv. unfold BigNumber_base16.
  destruct (String_of_value v) as [str | e] eqn:Hstr; [| discriminate Hv].
  unfold parseSignedDelegation. cbn [destructure bind_result prop].
  rewrite assoc_set_same. cbn [destructure bind_result prop].
  rewrite assoc_set_same, !assoc_set_other by reflexivity.
  rewrite Hguard. cbn [bind_result]. rewrite Hpk. cbn [bind_result].
  unfold BigNumber_base16. rewrite Hstr. cbn [bind_result].
  rewrite Htg. cbn [bind_result]. rewrite Hsg. cbn [bind_result].
  eexists. split; [reflexivity |]. split; [repeat split | reflexivity].
Qed.

Lemma mapM_withExpirations (vs : list value) (items : list JSON)
    (sds : list (@SignedDelegation Principal)) :
  mapM parseSignedDelegation items = Ok sds ->
  Forall (fun v => printable v = true) vs ->
  exists sds',
    mapM parseSignedDelegation (withExpirations vs items) = Ok sds'
    /\ Forall2 same_but_expiration sds sds'.
Proof.
  intros Hitems Hvs. revert items sds Hitems.
  induction Hvs as [| v vs' Hv _ IH]; intros items sds Hitems.
  - exists sds. destruct items; cbn [withExpirations];
      (split; [exact Hitems |]);
      clear Hitems; induction sds; constructor;
      auto using same_but_expiration_refl.
  - destruct items as [| entry rest].
    + exists sds. split; [exact Hitems |].
      clear Hitems; induction sds; constructor;
        auto using same_but_expiration_refl.
    + apply mapM_Ok_cons in Hitems.
      destruct Hitems as (sd & sds0 & -> & Hentry & Hrest).
      destruct (parseSignedDelegation_withExpiration v entry sd Hentry Hv)
        as (sd' & Hentry' & Hsame & _).
      destruct (IH rest sds0 Hrest) as (sds' & Hrest' & Hall).
      exists (sd' :: sds'). cbn [withExpirations mapM].
      rewrite Hentry'. cbn [bind_result]. rewrite Hrest'.
      split; [reflexivity | constructor; assumption].
Qed.

(** C10, as it holds. [fromJSON] makes no check of its own on
    [expiration]: an input that is accepted is accepted again, with the
    same keys, targets and signatures, whatever is put in place of its
    [expiration] values, as long as each converts to text; a missing
    value, [null], a boolean, a number and every text do, and a text that
    is not base 16 is read as not-a-number. *)
Theorem fromJSON_accepts_any_printable_expiration :
  (forall (vs : list value) (parsed : JSON)
          (chain : @DelegationChain Principal),
     fromJSON parsed = Ok chain ->
     Forall (fun v => printable v = true) vs ->
     exists chain',
       fromJSON (replaceExpirations vs parsed) = Ok chain'
       /\ publicKey chain' = publicKey chain
       /\ Forall2 same_but_expiration (delegations chain)
                                      (delegations chain'))
  /\ (forall v,
        match v with
        | None | Some JNull | Some (JBool _) | Some (JNumber _)
        | Some (JString _) => printable v = true
        | Some (JArray _) | Some (JObject _) => True
        end)
  /\ BigNumber_base16 (Some (JString "next tuesday")) = Ok BigNaN.
Proof.
  split; [| split; [| reflexivity]].
  - intros vs parsed chain Hf Hvs. unfold fromJSON in Hf.
    destruct parsed as [| b | r | s | l | fs]; try discriminate Hf.
    cbn [destructure bind_result prop] in Hf. cbn [replaceExpirations].
    destruct (assoc "delegations" fs) as [[| b | r | s | items | os] |]
      eqn:Hd; try discriminate Hf.
    apply bind_result_Ok in Hf. destruct Hf as (sds & Hsds & Hf).
    apply bind_result_Ok in Hf. destruct Hf as (pk & Hpk & Hf).
    injection Hf as <-.
    destruct (mapM_withExpirations vs items sds Hsds Hvs)
      as (sds' & Hsds' & Hall).
    unfold fromJSON. cbn [destructure bind_result prop].
    rewrite assoc_set_same, assoc_set_other by reflexivity.
    rewrite Hsds'. cbn [bind_result]. rewrite Hpk. cbn [bind_result].
    eexists. split; [reflexivity |]. split; [reflexivity | exact Hall].
  - intros [[| [] | r | s | l | fs] |]; try exact I; reflexivity.
Qed.

(** ** Writing a chain and reading it back *)

(** Whatever the delegation, the object [toJSON] writes for it has no
    [targets] property. *)
Lemma delegationToJSON_has_no_targets (d : @Delegation Principal) :
  prop (Some (delegationToJSON d)) "targets" = None.
Proof.
  unfold delegationToJSON. cbn [prop].
  destruct (targets d) as [ps |]; [| reflexivity].
  generalize (map toText ps) 0%nat. intros texts index.
  revert index. induction texts as [| t rest IH]; intros index;
    [reflexivity |].
  cbn [spreadArray app assoc].
  replace (String.eqb "targets"
             (DecimalString.NilZero.string_of_uint (Nat.to_uint index)))
    with false; [apply IH |].
  destruct (Nat.to_uint index); reflexivity.
Qed.

Lemma parseSignedDelegation_signedDelegationToJSON
    (sd : @SignedDelegation Principal) :
  targets (delegation sd) = None ->
  (32 <= List.length (pubkey (delegation sd)))%nat ->
  (32 <= List.length (signature sd))%nat ->
  parseSignedDelegation (signedDelegationToJSON sd) = Ok sd.
Proof.
  destruct sd as [[pk ex tg] sg]. cbn [delegation pubkey targets signature].
  intros -> Hpk Hsg.
  unfold parseSignedDelegation, signedDelegationToJSON, delegationToJSON.
  cbn [targets pubkey expiration delegation signature app prop assoc
       String.eqb Ascii.eqb Bool.eqb destructure bind_result
       isUndefined isArray negb andb].
  rewrite (parseBlob_toHex pk Hpk), (parseBlob_toHex sg Hsg).
  cbn [bind_result]. rewrite BigNumber_base16_toString16. reflexivity.
Qed.

Lemma mapM_parse_signedDelegationToJSON
    (sds : list (@SignedDelegation Principal)) :
  Forall (fun sd =>
            targets (delegation sd) = None
            /\ (32 <= List.length (pubkey (delegation sd)))%nat
            /\ (32 <= List.length (signature sd))%nat) sds ->
  mapM parseSignedDelegation (map signedDelegationToJSON sds) = Ok sds.
Proof.
  induction 1 as [| sd rest (Htg & Hpk & Hsg) _ IH]; [reflexivity |].
  cbn [map mapM].
  rewrite (parseSignedDelegation_signedDelegationToJSON sd Htg Hpk Hsg).
  cbn [bind_result]. rewrite IH. reflexivity.
Qed.

(** C1, as it holds. For a chain in which no delegation has [targets] and
    every delegate key, every signature and the root key is at least 32
    bytes long, [fromJSON] of what [toJSON] writes is that chain again,
    field for field. *)
Theorem fromJSON_toJSON_roundtrip (chain : @DelegationChain Principal) :
  Forall (fun sd =>
            targets (delegation sd) = None
            /\ (32 <= List.length (pubkey (delegation sd)))%nat
            /\ (32 <= List.length (signature sd))%nat)
         (delegations chain) ->
  (32 <= List.length (publicKey chain))%nat ->
  fromJSON (toJSON chain) = Ok chain.
Proof.
  intros Hentries Hroot. destruct chain as [sds root].
  cbn [delegations publicKey] in *.
  unfold fromJSON, toJSON.
  cbn [delegations publicKey prop assoc String.eqb Ascii.eqb Bool.eqb
       destructure bind_result].
  rewrite (mapM_parse_signedDelegationToJSON sds Hentries).
  cbn [bind_result]. rewrite (parseBlob_toHex root Hroot). reflexivity.
Qed.

End SerializationFacts.

(** * The statements at work *)

(** ** Round trip *)

Lemma fromJSON_toJSON_roundtrip_witness :
  fromJSON (toJSON open_chain) = Ok open_chain.
Proof.
  apply (fromJSON_toJSON_roundtrip open_chain).
  - repeat constructor; vm_compute; lia.
  - vm_compute; lia.
Defined.

(** C1, as stated, fails: the chain [create] makes with a signer whose
    signatures are three bytes long is written with a six-character
    [signature], which [parseBlob] refuses, so reading it back throws
    instead of giving the chain. *)
Lemma roundtrip_rejects_short_signature :
  create mock (getPublicKey middle) (DateOf 1000) {| previous := None |}
  = Resolved mock_chain
  /\ fromJSON (toJSON mock_chain) = Throw (Error "Invalid public key.")
  /\ fromJSON (toJSON mock_chain) <> Ok mock_chain.
Proof. split; [reflexivity | split; [reflexivity | discriminate]]. Qed.

(** C2 at a chain whose delegation names two recipients: [toJSON] writes
    them under the names [0] and [1], the object has no [targets]
    property, and the chain read back has lost its recipients. No
    delegation is ever written with a [targets] property. *)
Theorem toJSON_spreads_targets_under_indices :
  toJSON restricted_chain = restricted_chain_json
  /\ map entryTargets
       match prop (Some (toJSON restricted_chain)) "delegations" with
       | Some (JArray items) => items
       | _ => []
       end = [None]
  /\ fromJSON (toJSON restricted_chain) = Ok open_chain
  /\ forall d : @Delegation string,
       prop (Some (delegationToJSON d)) "targets" = None.
Proof.
  repeat split. apply delegationToJSON_has_no_targets.
Qed.

Example fromJSON_reads_targets :
  fromJSON restricted_chain_wire = Ok restricted_chain.
Proof. reflexivity. Qed.

(** ** Rejected inputs *)

Lemma fromJSON_rejects_malformed_witness :
  exists e,
    fromJSON (Principal := string)
      (JObject [ ("publicKey", JString (toHex (key_of x01))) ]) = Throw e.
Proof.
  apply fromJSON_rejects_malformed. left. reflexivity.
Defined.

Example fromJSON_delegations_not_array :
  fromJSON (Principal := string)
    (JObject [ ("delegations", JString "none");
               ("publicKey", JString (toHex (key_of x01))) ])
  = Throw (Error "Invalid delegations.").
Proof. reflexivity. Qed.

Example fromJSON_targets_not_array :
  fromJSON (Principal := string)
    (JObject [
       ("delegations", JArray [
          JObject [
            ("delegation", JObject [
               ("expiration", JString "ff");
               ("pubkey", JString (toHex (key_of x02)));
               ("targets", JString "aaaaa-aa") ]);
            ("signature", JString (toHex (key_of x01 ++ key_of x01))) ] ]);
       ("publicKey", JString (toHex (key_of x01))) ])
  = Throw (Error "Invalid targets.").
Proof. reflexivity. Qed.

Example fromJSON_target_not_text :
  fromJSON (Principal := string)
    (JObject [
       ("delegations", JArray [
          JObject [
            ("delegation", JObject [
               ("expiration", JString "ff");
               ("pubkey", JString (toHex (key_of x02)));
               ("targets", JArray [ JString "aaaaa-aa"; JNumber "5" ]) ]);
            ("signature", JString (toHex (key_of x01 ++ key_of x01))) ] ]);
       ("publicKey", JString (toHex (key_of x01))) ])
  = Throw (Error "Invalid target.").
Proof. reflexivity. Qed.

Example fromJSON_null :
  fromJSON (Principal := string) JNull = Throw TypeError.
Proof. reflexivity. Qed.

(** ** Expirations *)

Lemma fromJSON_accepts_any_printable_expiration_witness :
  exists chain',
    fromJSON (replaceExpirations [ Some (JString "next tuesday") ]
                (toJSON open_chain)) = Ok chain'
    /\ publicKey chain' = publicKey open_chain
    /\ Forall2 same_but_expiration (delegations open_chain)
                                   (delegations chain').
Proof.
  apply (proj1 fromJSON_accepts_any_printable_expiration
           [ Some (JString "next tuesday") ] (toJSON open_chain) open_chain).
  - reflexivity.
  - repeat constructor.
Defined.

(** C10, as stated, fails: of two inputs that differ in [expiration]
    alone, the one whose [expiration] is an object with a [toString]
    property of its own makes [fromJSON] throw a [TypeError]. *)
Lemma fromJSON_throws_on_unprintable_expiration :
  replaceExpirations [ Some unprintable ] (toJSON open_chain)
  = open_chain_unprintable
  /\ fromJSON (toJSON open_chain) = Ok open_chain
  /\ fromJSON (Principal := string) open_chain_unprintable = Throw TypeError.
Proof. repeat split. Qed.

Example fromJSON_expiration_not_hex :
  fromJSON (replaceExpirations [ Some (JString "next tuesday") ]
              (toJSON open_chain))
  = Ok undated_chain.
Proof. reflexivity. Qed.

Example fromJSON_expiration_missing :
  fromJSON (replaceExpirations [ None ] (toJSON open_chain))
  = Ok undated_chain.
Proof. reflexivity. Qed.

Example fromJSON_expiration_object :
  fromJSON (replaceExpirations [ Some (JObject []) ] (toJSON open_chain))
  = Ok undated_chain.
Proof. reflexivity. Qed.

Lemma expiration_is_exact_nanoseconds_witness :
  exists sd : @SignedDelegation string,
    _createSingleDelegation root (getPublicKey middle) (DateOf maxTimeValue)
      None = Resolved sd
    /\ expiration (delegation sd) = BigInt 8640000000000000000000
    /\ ((2 ^ 63 <= maxTimeValue * 1000000)%Z ->
        expiration (delegation sd) <> BigInt (wrap64 (maxTimeValue * 1000000)))
    /\ (@None (list string) = None ->
        forall options, exists chain,
          create root (getPublicKey middle) (DateOf maxTimeValue) options
          = Resolved chain
          /\ In sd (delegations chain)).
Proof.
  eapply (expiration_is_exact_nanoseconds root (getPublicKey middle)
            maxTimeValue None); reflexivity.
Defined.

Example far_future_exceeds_64_bits :
  (2 ^ 63 <= maxTimeValue * 1000000)%Z
  /\ wrap64 (maxTimeValue * 1000000) = 6923773503929843712%Z.
Proof. split; [vm_compute; discriminate | reflexivity]. Qed.

(** ** Signing and building *)

Lemma signature_is_sign_of_separator_and_digest_witness :
  signDelegation (delegation_to x03) middle
  = Resolved (signature_by x02 (delegation_to x03))
  /\ forall to when tg,
       delegation_to x03
       = {| pubkey := toDer to;
            expiration := times (BigNumber_of (valueOf when))
                                (BigNumber_of (Num 1000000));
            targets := tg |} ->
       _createSingleDelegation middle to when tg
       = Resolved (signed_by x02 (delegation_to x03)).
Proof.
  apply (signature_is_sign_of_separator_and_digest (delegation_to x03) middle
           (key_of x03 ++ encode "3b9aca00")); reflexivity.
Defined.

Lemma create_appends_and_keeps_root_witness :
  exists chain : @DelegationChain string,
    create middle (getPublicKey bottom) (DateOf 1000)
      {| previous := Some one_step_chain |} = Resolved chain
    /\ (delegations chain
        = delegations one_step_chain ++ [ signed_by x02 (delegation_to x03) ]
        /\ List.length (delegations chain)
           = S (List.length (delegations one_step_chain))
        /\ firstn (List.length (delegations one_step_chain))
             (delegations chain) = delegations one_step_chain
        /\ publicKey chain = publicKey one_step_chain).
Proof.
  apply (create_appends_and_keeps_root middle (getPublicKey bottom)
           (DateOf 1000) {| previous := Some one_step_chain |}
           (signed_by x02 (delegation_to x03))).
  reflexivity.
Defined.

Example create_propagates_rejection :
  create (Principal := string) unavailable (getPublicKey middle) (DateOf 1000)
    {| previous := Some one_step_chain |}
  = Rejected (Rejection "user cancelled").
Proof. reflexivity. Qed.

Example create_first_step :
  create root (getPublicKey middle) (DateOf 1000) {| previous := None |}
  = Resolved one_step_chain.
Proof. reflexivity. Qed.

Example create_second_step :
  create middle (getPublicKey bottom) (DateOf 1000)
    {| previous := Some one_step_chain |}
  = Resolved two_step_chain.
Proof. reflexivity. Qed.

Lemma create_only_chains_are_unrestricted_witness :
  Forall unrestricted (delegations two_step_chain).
Proof.
  apply (proj2 create_only_chains_are_unrestricted).
  apply (built_next middle (getPublicKey bottom) (DateOf 1000)
           one_step_chain); [| reflexivity].
  apply (built_first root (getPublicKey middle) (DateOf 1000)).
  reflexivity.
Defined.

(** Extending a chain that has recipients: the new entry has none. *)
Example create_after_restricted_chain :
  exists chain sd,
    create middle (getPublicKey bottom) (DateOf 1000)
      {| previous := Some restricted_chain |} = Resolved chain
    /\ delegations chain = delegations restricted_chain ++ [sd]
    /\ unrestricted sd.
Proof. do 2 eexists. repeat split. Qed.

(** ** Delegation identities *)

Lemma delegation_identity_shows_root_key_witness :
  toDer (DelegationIdentity_getPublicKey (fromDelegation bottom two_step_chain))
  = key_of x01
  /\ toDer (getPublicKey (asSignIdentity (fromDelegation bottom two_step_chain)))
     <> toDer (getPublicKey bottom).
Proof.
  apply (delegation_identity_shows_root_key bottom two_step_chain).
  vm_compute. discriminate.
Defined.

Lemma transformRequest_wraps_body_witness :
  transformRequest (fromDelegation bottom two_step_chain) call_request
  = Resolved {|
      other_fields := [ ("endpoint", "call") ];
      signed_body := {|
        content := [x2a; x07];
        sender_sig :=
          key_of x03 ++ (x0a :: encode "ic-request" ++ [x07; x2a])
          ++ key_of x03;
        sender_delegation := delegations two_step_chain;
        sender_pubkey := key_of x01
      |}
    |}.
Proof.
  apply (transformRequest_wraps_body bottom two_step_chain call_request
           [x07; x2a]); reflexivity.
Defined.

(** * Further properties of the code *)

(** ** What [parseBlob] and [fromJSON] accept *)

Lemma isOk_bind {A B} (r : result A) (k : A -> result B) :
  isOk (bind_result r k) = match r with Ok a => isOk (k a) | Throw _ => false end.
Proof. destruct r; reflexivity. Qed.

Lemma isOk_mapM {A B} (f : A -> result B) (xs : list A) :
  isOk (mapM f xs) = forallb (fun x => isOk (f x)) xs.
Proof.
  induction xs as [| x rest IH]; [reflexivity |].
  cbn [mapM forallb]. destruct (f x) as [y | e]; cbn [bind_result isOk andb];
    [| reflexivity].
  rewrite <- IH. destruct (mapM f rest); reflexivity.
Qed.

Lemma forallb_pointwise {A} (f g : A -> bool) (xs : list A) :
  (forall x, f x = g x) -> forallb f xs = forallb g xs.
Proof.
  intros Hfg. induction xs as [| x rest IH]; [reflexivity |].
  cbn [forallb]. now rewrite Hfg, IH.
Qed.

Lemma isOk_parseBlob (v : value) : isOk (parseBlob v) = validKey v.
Proof.
  destruct v as [[| b | r | s | l | fs] |]; cbn [parseBlob validKey isOk];
    try reflexivity.
  destruct (Nat.ltb_spec (String.length s) 64) as [Hlt | Hge]; cbn [isOk];
    symmetry; [apply Nat.leb_gt | apply Nat.leb_le]; assumption.
Qed.

Lemma isOk_BigNumber_base16 (v : value) :
  isOk (BigNumber_base16 v) = printable v.
Proof.
  unfold BigNumber_base16, printable.
  destruct (String_of_value v); reflexivity.
Qed.



Lemma mapM_first_Throw {A B} (f : A -> result B) good bad rest ys e :
  mapM f good = Ok ys -> f bad = Throw e ->
  mapM f (good ++ bad :: rest) = Throw e.
Proof.
  revert ys. induction good as [| x good' IH]; intros ys Hgood Hbad.
  - cbn [app mapM]. now rewrite Hbad.
  - apply mapM_Ok_cons in Hgood.
    destruct Hgood as (y & ys' & _ & Hy & Hrest).
    cbn [app mapM]. rewrite Hy. cbn [bind_result].
    now rewrite (IH ys' Hrest Hbad).
Qed.

Lemma parseBlob_toHex_cases (blob : BinaryBlob) :
  parseBlob (Some (JString (toHex blob)))
  = if longEnough blob then Ok blob
    else Throw (Error "Invalid public key.").
Proof.
  unfold longEnough.
  destruct (Nat.leb_spec 32 (List.length blob)) as [Hge | Hlt].
  - now apply parseBlob_toHex.
  - apply parseBlob_invalid. cbn [validKey]. rewrite toHex_length.
    apply Nat.leb_gt. lia.
Qed.

(** X1. [parseBlob] applied to the hex text of a blob returns that blob
    when the blob has at least 32 bytes and throws [Invalid public key.]
    when it is shorter: the 64-character bound on the text is a 32-byte
    bound on what [toJSON] can write and [fromJSON] read back. A value
    that is not a text is refused as well. *)
Theorem parseBlob_of_hex_text (blob : BinaryBlob) :
  parseBlob (Some (JString (toHex blob)))
  = (if longEnough blob then Ok blob
     else Throw (Error "Invalid public key."))
  /\ (String.length (toHex blob) = 2 * List.length blob)%nat
  /\ forall v, match v with Some (JString _) => True
                          | _ => parseBlob v
                                 = Throw (Error "Invalid public key.")
              end.
Proof.
  split; [apply parseBlob_toHex_cases |].
  split; [apply toHex_length |].
  intros [[| b | r | s | l | fs] |]; first [reflexivity | exact I].
Qed.

Section AcceptanceFacts.

Context {Principal : Type} {PT : PrincipalText Principal}.

Lemma isOk_parseTargets (ts : list JSON) :
  isOk (mapM (parseTarget (Principal := Principal)) ts)
  = forallb targetParses ts.
Proof.
  rewrite isOk_mapM. apply forallb_pointwise. intros [| b | r | s | l | fs];
    reflexivity.
Qed.

Lemma isOk_parseSignedDelegation (entry : JSON) :
  isOk (parseSignedDelegation (Principal := Principal) entry)
  = acceptsEntry entry.
Proof.
  unfold acceptsEntry, entryPubkey, entryExpiration, entryTargets,
    entrySignature, parseSignedDelegation.
  rewrite <- !isOk_parseBlob, <- isOk_BigNumber_base16.
  destruct entry as [| b | r | s | l | fs]; try reflexivity.
  cbn [destructure bind_result prop].
  destruct (assoc "delegation" fs) as [[| b | r | s | l | ds] |];
    try reflexivity.
  cbn [destructure bind_result prop].
  destruct (assoc "targets" ds) as [[| b | r | s | ts | os] |];
    cbn [isUndefined isArray negb andb bind_result isOk targetsParse];
    destruct (parseBlob (assoc "pubkey" ds)) as [pk | e];
    cbn [bind_result isOk andb]; try reflexivity;
    destruct (BigNumber_base16 (assoc "expiration" ds)) as [ex | e];
    cbn [bind_result isOk andb]; try reflexivity.
  - rewrite <- isOk_parseTargets.
    destruct (mapM parseTarget ts) as [ps | e];
      cbn [bind_result isOk andb]; [| reflexivity].
    destruct (parseBlob (assoc "signature" fs)); reflexivity.
  - destruct (parseBlob (assoc "signature" fs)); reflexivity.
Qed.

(** X2. [fromJSON] returns a chain exactly for the inputs that pass this
    test: [delegations] is an array; in every entry [pubkey] and
    [signature] are texts of at least 64 characters, [expiration]
    converts to text, and [targets] is absent or an array of texts that
    [Principal.fromText] accepts; and [publicKey] is a text of at least 64
    characters. Every other input makes it throw. *)
Theorem fromJSON_accepts_exactly (parsed : JSON) :
  isOk (fromJSON (Principal := Principal) parsed) = accepts parsed.
Proof.
  unfold fromJSON, accepts.
  destruct parsed as [| b | r | s | l | fs]; try reflexivity.
  cbn [destructure bind_result prop].
  destruct (assoc "delegations" fs) as [[| b | r | s | items | os] |];
    try reflexivity.
  rewrite isOk_bind.
  pose proof (isOk_mapM (parseSignedDelegation (Principal := Principal)) items)
    as Hitems.
  rewrite (forallb_pointwise _ _ items isOk_parseSignedDelegation) in Hitems.
  rewrite <- Hitems, <- isOk_parseBlob.
  destruct (mapM parseSignedDelegation items) as [sds | e];
    cbn [isOk andb]; [| reflexivity].
  destruct (parseBlob (assoc "publicKey" fs)); reflexivity.
Qed.




(** X4. The checks are made in a fixed order and the first failure is the
    one thrown: an input whose [delegations] is not an array throws
    [Invalid delegations.] whatever its [publicKey] (a [TypeError] when
    the input is [null]); the
    error of the first entry that fails is thrown whatever the later
    entries and the [publicKey] are; and the [publicKey] is checked only
    when every entry has been read. *)
Theorem fromJSON_throws_first_failure :
  (forall parsed,
     isArray (prop (Some parsed) "delegations") = false ->
     fromJSON (Principal := Principal) parsed
     = Throw match parsed with
             | JNull => TypeError
             | _ => Error "Invalid delegations."
             end)
  /\ (forall fs good bad rest sds e,
        assoc "delegations" fs = Some (JArray (good ++ bad :: rest)) ->
        mapM (parseSignedDelegation (Principal := Principal)) good = Ok sds ->
        parseSignedDelegation (Principal := Principal) bad = Throw e ->
        fromJSON (Principal := Principal) (JObject fs) = Throw e)
  /\ (forall fs items sds,
        assoc "delegations" fs = Some (JArray items) ->
        mapM (parseSignedDelegation (Principal := Principal)) items = Ok sds ->
        validKey (assoc "publicKey" fs) = false ->
        fromJSON (Principal := Principal) (JObject fs)
        = Throw (Error "Invalid public key.")).
Proof.
  split; [| split].
  - intros parsed Hnot. unfold fromJSON.
    destruct parsed as [| b | r | s | l | fs]; try reflexivity.
    cbn [destructure bind_result prop] in *.
    destruct (assoc "delegations" fs) as [[| b | r | s | items | os] |];
      try reflexivity. discriminate Hnot.
  - intros fs good bad rest sds e Hd Hgood Hbad.
    unfold fromJSON. cbn [destructure bind_result prop]. rewrite Hd.
    now rewrite (mapM_first_Throw _ good bad rest sds e Hgood Hbad).
  - intros fs items sds Hd Hitems Hkey.
    unfold fromJSON. cbn [destructure bind_result prop]. rewrite Hd, Hitems.
    cbn [bind_result]. now rewrite (parseBlob_invalid _ Hkey).
Qed.

(** X5. [fromJSON] reads [publicKey] and [delegations] of the input,
    [delegation] and [signature] of each entry, and [pubkey],
    [expiration] and [targets] of each delegation, and nothing else:
    setting or deleting a property of any other name, at any of the three
    levels, changes neither the chain returned nor the error thrown. *)
Theorem fromJSON_ignores_other_properties (k : string) (v : value) :
  (forall fs,
     String.eqb "publicKey" k = false ->
     String.eqb "delegations" k = false ->
     fromJSON (Principal := Principal) (JObject (set_field k v fs))
     = fromJSON (JObject fs))
  /\ (forall fs,
        String.eqb "delegation" k = false ->
        String.eqb "signature" k = false ->
        parseSignedDelegation (Principal := Principal)
          (JObject (set_field k v fs))
        = parseSignedDelegation (JObject fs))
  /\ (forall fs ds,
        String.eqb "pubkey" k = false ->
        String.eqb "expiration" k = false ->
        String.eqb "targets" k = false ->
        assoc "delegation" fs = Some (JObject ds) ->
        parseSignedDelegation (Principal := Principal)
          (JObject (set_field "delegation"
                      (Some (JObject (set_field k v ds))) fs))
        = parseSignedDelegation (JObject fs)).
Proof.
  split; [| split].
  - intros fs Hpk Hds. unfold fromJSON. cbn [destructure bind_result prop].
    now rewrite !assoc_set_other by assumption.
  - intros fs Hd Hsg. unfold parseSignedDelegation.
    cbn [destructure bind_result prop].
    now rewrite !assoc_set_other by assumption.
  - intros fs ds Hpk Hex Htg Hd. unfold parseSignedDelegation.
    cbn [destructure bind_result prop].
    rewrite assoc_set_same, Hd. cbn [destructure bind_result prop].
    rewrite (assoc_set_other "signature" "delegation") by reflexivity.
    now rewrite !assoc_set_other by assumption.
Qed.

End AcceptanceFacts.

(** ** Writing any chain and reading it back *)

Section RoundTripFacts.

Context {Principal : Type} {PT : PrincipalText Principal}.

(** The names [fromJSON] reads are not indices. *)
Lemma assoc_after_spreadArray (k : string) (index : nat)
    (texts : list string) (rest : list (string * JSON)) :
  (forall n, String.eqb k (DecimalString.NilZero.string_of_uint (Nat.to_uint n))
             = false) ->
  assoc k (spreadArray index texts ++ rest) = assoc k rest.
Proof.
  intros Hk. revert index.
  induction texts as [| t more IH]; intros index; [reflexivity |].
  cbn [spreadArray app assoc]. rewrite Hk. apply IH.
Qed.

Lemma name_is_no_index (k : string) :
  match k with
  | String c _ => is_lower c = true
  | EmptyString => False
  end ->
  forall n, String.eqb k (DecimalString.NilZero.string_of_uint (Nat.to_uint n))
            = false.
Proof.
  destruct k as [| c k']; [intros [] |]. intros Hc n.
  assert (Hne : forall d, is_lower d = false -> Ascii.eqb c d = false).
  { intros d Hd. destruct (Ascii.eqb_spec c d) as [-> |]; congruence. }
  destruct (Nat.to_uint n);
    cbn [DecimalString.NilZero.string_of_uint
         DecimalString.NilEmpty.string_of_uint String.eqb];
    match goal with
    | |- context [Ascii.eqb c ?d] => now rewrite (Hne d eq_refl)
    end.
Qed.

Lemma prop_delegationToJSON (d : @Delegation Principal) (k : string) :
  match k with
  | String c _ => is_lower c = true
  | EmptyString => False
  end ->
  prop (Some (delegationToJSON d)) k
  = assoc k [ ("expiration", JString (toString16 (expiration d)));
              ("pubkey", JString (toHex (pubkey d))) ].
Proof.
  intros Hk. unfold delegationToJSON. cbn [prop].
  destruct (targets d) as [ps |]; [| reflexivity].
  apply assoc_after_spreadArray. now apply name_is_no_index.
Qed.

Lemma parseSignedDelegation_of_toJSON (sd : @SignedDelegation Principal) :
  parseSignedDelegation (signedDelegationToJSON sd)
  = if longEnough (pubkey (delegation sd)) && longEnough (signature sd)
    then Ok (withoutTargets sd)
    else Throw (Error "Invalid public key.").
Proof.
  unfold parseSignedDelegation, signedDelegationToJSON.
  cbn [destructure bind_result].
  change (prop (Some (JObject ?fs)) ?k) with (assoc k fs).
  cbn [assoc String.eqb Ascii.eqb Bool.eqb].
  assert (Hd : destructure (Some (delegationToJSON (delegation sd))) = Ok tt)
    by reflexivity.
  rewrite Hd. cbn [bind_result].
  rewrite !prop_delegationToJSON by reflexivity.
  cbn [assoc String.eqb Ascii.eqb Bool.eqb isUndefined isArray negb andb
       bind_result].
  rewrite !parseBlob_toHex_cases, BigNumber_base16_toString16.
  destruct (longEnough (pubkey (delegation sd))); cbn [bind_result andb];
    [| reflexivity].
  destruct (longEnough (signature sd)); reflexivity.
Qed.

Lemma mapM_parse_of_toJSON (sds : list (@SignedDelegation Principal)) :
  mapM parseSignedDelegation (map signedDelegationToJSON sds)
  = if forallb (fun sd => longEnough (pubkey (delegation sd))
                          && longEnough (signature sd)) sds
    then Ok (map withoutTargets sds)
    else Throw (Error "Invalid public key.").
Proof.
  induction sds as [| sd rest IH]; [reflexivity |].
  cbn [map mapM forallb]. rewrite parseSignedDelegation_of_toJSON.
  destruct (longEnough (pubkey (delegation sd)) && longEnough (signature sd));
    cbn [bind_result andb]; [| reflexivity].
  rewrite IH.
  destruct (forallb _ rest); reflexivity.
Qed.

(** X6. For every chain, with or without targets: if every delegate key,
    every signature and the root key has at least 32 bytes, [fromJSON] of
    what [toJSON] writes is the chain with all its targets removed;
    otherwise it throws [Invalid public key.]. *)
Theorem fromJSON_toJSON_any_chain (chain : @DelegationChain Principal) :
  fromJSON (toJSON chain)
  = if allLongEnough chain then Ok (chainWithoutTargets chain)
    else Throw (Error "Invalid public key.").
Proof.
  unfold fromJSON, toJSON, allLongEnough, chainWithoutTargets.
  cbn [destructure bind_result prop assoc String.eqb Ascii.eqb Bool.eqb].
  rewrite mapM_parse_of_toJSON, parseBlob_toHex_cases.
  destruct (forallb _ (delegations chain)); cbn [bind_result andb];
    [| reflexivity].
  destruct (longEnough (publicKey chain)); reflexivity.
Qed.

Lemma toHex_injective (a b : BinaryBlob) : toHex a = toHex b -> a = b.
Proof.
  intros Hab. rewrite <- (blobFromHex_toHex a), <- (blobFromHex_toHex b).
  now rewrite Hab.
Qed.

Lemma toString16_injective (x y : BigNumber) :
  toString16 x = toString16 y -> x = y.
Proof.
  intros Hxy. rewrite <- (BigNumber_of_text16_toString16 x),
    <- (BigNumber_of_text16_toString16 y). now rewrite Hxy.
Qed.

(** X7. [toJSON] keeps everything of a chain but its targets apart: two
    chains that are written alike have the same root key and, entry by
    entry, the same delegate keys, expirations and signatures, whatever
    their lengths. *)
Theorem toJSON_tells_chains_apart (a b : @DelegationChain Principal) :
  toJSON a = toJSON b -> chainWithoutTargets a = chainWithoutTargets b.
Proof.
  destruct a as [sdsa ka], b as [sdsb kb].
  unfold toJSON, chainWithoutTargets. cbn [delegations publicKey].
  intros Hab. injection Hab as Hsds Hk.
  apply toHex_injective in Hk. subst kb. f_equal.
  revert sdsb Hsds. induction sdsa as [| sa ra IH]; intros [| sb rb] Hsds;
    try discriminate Hsds; [reflexivity |].
  cbn [map] in *. injection Hsds as Hd Hsg Hrest.
  apply toHex_injective in Hsg.
  rewrite (IH rb Hrest). f_equal.
  assert (Htail : forall (xs ys : list (string * JSON)) p q p' q',
             xs ++ [p; q] = ys ++ [p'; q'] -> p = p' /\ q = q').
  { intros xs ys p q p' q' Heq.
    change (xs ++ [p; q]) with (xs ++ [p] ++ [q]) in Heq.
    change (ys ++ [p'; q']) with (ys ++ [p'] ++ [q']) in Heq.
    rewrite !app_assoc in Heq.
    apply app_inj_tail in Heq. destruct Heq as (Heq & ->).
    apply app_inj_tail in Heq. destruct Heq as (_ & ->). now split. }
  apply Htail in Hd. destruct Hd as (Hex & Hpk).
  injection Hex as Hex. injection Hpk as Hpk.
  apply toString16_injective in Hex. apply toHex_injective in Hpk.
  unfold withoutTargets. now rewrite Hex, Hpk, Hsg.
Qed.

End RoundTripFacts.

(** ** Building chains and signing requests *)

Section BuildingFacts.

Context {Principal : Type} {PT : PrincipalText Principal}.
Context {RD : RequestId (@Delegation Principal)}.
Context {Body Field : Type} {RB : RequestId Body}.

(** X8. [create] settles as its collaborators do: when the request-id
    function rejects, or when it resolves and [from.sign] rejects,
    [create] rejects with that very error, whatever the previous chain;
    and it resolves only when both have resolved. *)
Theorem create_rejects_as_its_collaborators (from : SignIdentity)
    (to : PublicKey) (when : Date) (options : @CreateOptions Principal) :
  (forall e,
     requestIdOf {| pubkey := toDer to;
                    expiration := times (BigNumber_of (valueOf when))
                                        (BigNumber_of (Num 1000000));
                    targets := @None (list Principal) |} = Rejected e ->
     create from to when options = Rejected e)
  /\ (forall id e,
        requestIdOf {| pubkey := toDer to;
                       expiration := times (BigNumber_of (valueOf when))
                                           (BigNumber_of (Num 1000000));
                       targets := @None (list Principal) |} = Resolved id ->
        sign from (domainSeparator ++ id) = Rejected e ->
        create from to when options = Rejected e)
  /\ (forall chain,
        create from to when options = Resolved chain ->
        exists id sig,
          requestIdOf {| pubkey := toDer to;
                         expiration := times (BigNumber_of (valueOf when))
                                             (BigNumber_of (Num 1000000));
                         targets := @None (list Principal) |} = Resolved id
          /\ sign from (domainSeparator ++ id) = Resolved sig).
Proof.
  unfold create, _createSingleDelegation, signDelegation, blobFromUint8Array.
  split; [| split].
  - intros e Hid. now rewrite Hid.
  - intros id e Hid Hsig. rewrite Hid. cbn [await]. now rewrite Hsig.
  - intros chain Hc.
    destruct (requestIdOf _) as [id | e]; [| discriminate Hc].
    cbn [await] in Hc.
    destruct (sign from (domainSeparator ++ id)) as [sig | e] eqn:Hsig;
      [| discriminate Hc].
    now exists id, sig.
Qed.

(** X9. [transformRequest] settles as its collaborators do, and looks at
    nothing else: when the request-id function rejects for the body, or
    when it resolves and the inner signer rejects, [transformRequest]
    rejects with that very error; and when both resolve it resolves,
    whatever the chain holds (an empty chain, or one that does not end at
    the inner signer's key, is sent as it is). *)
Theorem transformRequest_rejects_as_its_collaborators (inner : SignIdentity)
    (chain : @DelegationChain Principal)
    (request : @HttpAgentRequest Body Field) :
  (forall e,
     requestIdOf (body request) = Rejected e ->
     transformRequest (fromDelegation inner chain) request = Rejected e)
  /\ (forall id e,
        requestIdOf (body request) = Resolved id ->
        sign inner (requestDomainSeparator ++ id) = Rejected e ->
        transformRequest (fromDelegation inner chain) request = Rejected e)
  /\ (forall id sig,
        requestIdOf (body request) = Resolved id ->
        sign inner (requestDomainSeparator ++ id) = Resolved sig ->
        exists t,
          transformRequest (fromDelegation inner chain) request = Resolved t
          /\ sender_delegation (signed_body t) = delegations chain).
Proof.
  unfold transformRequest, DelegationIdentity_sign, blobFromUint8Array.
  cbn [fromDelegation _inner _delegation].
  split; [| split].
  - intros e Hid. now rewrite Hid.
  - intros id e Hid Hsig. rewrite Hid. cbn [await]. now rewrite Hsig.
  - intros id sig Hid Hsig. rewrite Hid. cbn [await]. rewrite Hsig.
    cbn [await]. eexists. split; reflexivity.
Qed.

Lemma create_last_entry from to when options
    (chain : @DelegationChain Principal) :
  create from to when options = Resolved chain ->
  exists sd,
    _createSingleDelegation from to when None = Resolved sd
    /\ pubkey (delegation sd) = toDer to
    /\ delegations chain
       = match previous options with
         | Some earlier => delegations earlier
         | None => []
         end ++ [sd]
    /\ publicKey chain
       = match previous options with
         | Some earlier => publicKey earlier
         | None => toDer (getPublicKey from)
         end.
Proof.
  intros Hc. apply create_Resolved in Hc.
  destruct Hc as (sd & Hsd & Hds & Hpk).
  exists sd. repeat split; try assumption.
  apply createSingleDelegation_Resolved in Hsd. destruct Hsd as (Hd & _).
  now rewrite Hd.
Qed.

(** X10. A chain made by [create] alone, starting with the signer [first]
    and delegating in turn to the keys [keys], has [first]'s DER key as
    its root key however many times it was extended, has one entry for
    each of the keys, in order, each naming its key as [pubkey], and is
    never empty. *)
Theorem chain_of_keeps_root_and_order (first : SignIdentity)
    (keys : list PublicKey) (chain : @DelegationChain Principal) :
  chain_of first keys chain ->
  publicKey chain = toDer (getPublicKey first)
  /\ map (fun sd => pubkey (delegation sd)) (delegations chain)
     = map toDer keys
  /\ (0 < List.length (delegations chain))%nat.
Proof.
  induction 1 as [to when chain Hc
                 | from to when keys earlier chain _ IH Hc];
    apply create_last_entry in Hc;
    destruct Hc as (sd & _ & Hto & Hds & Hpk); cbn [previous] in Hds, Hpk;
    rewrite Hds, Hpk.
  - cbn [app map List.length]. rewrite Hto. repeat split. lia.
  - destruct IH as (Hroot & Hkeys & Hlen).
    rewrite !map_app, Hkeys, length_app. cbn [map List.length].
    rewrite Hto. repeat split; [assumption | lia].
Qed.



(** X13. What is signed for a delegation is never what is signed for a
    request: with a signer that returns the bytes it is given, the
    signature [signDelegation] resolves to starts with the byte [0x1A],
    the [sender_sig] of [transformRequest] starts with the byte [0x0A],
    and the two differ, whatever the delegation, the request and the
    digests. *)
Theorem delegation_and_request_signing_differ (key : DerEncodedBlob)
    (d : @Delegation Principal) (chain : @DelegationChain Principal)
    (request : @HttpAgentRequest Body Field) (m : BinaryBlob)
    (t : @TransformedRequest Principal Body Field) :
  signDelegation d (recorder key) = Resolved m ->
  transformRequest (fromDelegation (recorder key) chain) request
  = Resolved t ->
  hd_error m = Some x1a
  /\ hd_error (sender_sig (signed_body t)) = Some x0a
  /\ sender_sig (signed_body t) <> m.
Proof.
  unfold signDelegation, transformRequest, DelegationIdentity_sign,
    blobFromUint8Array.
  cbn [fromDelegation _inner _delegation recorder sign].
  intros Hm Ht.
  destruct (requestIdOf d) as [id |]; [| discriminate Hm].
  destruct (requestIdOf (body request)) as [rid |]; [| discriminate Ht].
  cbn [await] in Hm, Ht. injection Hm as <-. injection Ht as <-.
  cbn [signed_body sender_sig]. repeat split. discriminate.
Qed.

(** X14. Root to middle to leaf: when [root] signs for [middle]'s key and
    [middle] signs for [leaf]'s key, the two calls of [create] (the second
    with the first chain as [previous]) and [transformRequest] of the
    identity made of [leaf] and the second chain all resolve, and the
    request carries exactly the two signed delegations, root's first, and
    [root]'s DER key as [sender_pubkey]. *)
Theorem three_level_chain_in_request (root middle leaf : SignIdentity)
    (until1 until2 : Date) (sd1 sd2 : @SignedDelegation Principal)
    (request : @HttpAgentRequest Body Field) (id sig : BinaryBlob) :
  _createSingleDelegation root (getPublicKey middle) until1 None
  = Resolved sd1 ->
  _createSingleDelegation middle (getPublicKey leaf) until2 None
  = Resolved sd2 ->
  requestIdOf (body request) = Resolved id ->
  sign leaf (requestDomainSeparator ++ id) = Resolved sig ->
  exists chain1 chain2 t,
    create root (getPublicKey middle) until1 {| previous := None |}
    = Resolved chain1
    /\ create middle (getPublicKey leaf) until2 {| previous := Some chain1 |}
       = Resolved chain2
    /\ transformRequest (fromDelegation leaf chain2) request = Resolved t
    /\ sender_delegation (signed_body t) = [sd1; sd2]
    /\ sender_pubkey (signed_body t) = toDer (getPublicKey root)
    /\ sender_sig (signed_body t) = sig
    /\ pubkey (delegation sd1) = toDer (getPublicKey middle)
    /\ pubkey (delegation sd2) = toDer (getPublicKey leaf).
Proof.
  intros H1 H2 Hid Hsig.
  unfold create. rewrite H1. cbn [await previous delegations publicKey].
  eexists. eexists. eexists. split; [reflexivity |].
  rewrite H2. cbn [await previous delegations publicKey app].
  split; [reflexivity |].
  unfold transformRequest, DelegationIdentity_sign, blobFromUint8Array.
  cbn [fromDelegation _inner _delegation delegations publicKey].
  rewrite Hid. cbn [await]. rewrite Hsig. cbn [await].
  split; [reflexivity |]. cbn [signed_body sender_delegation sender_pubkey
                               sender_sig].
  repeat split.
  - apply createSingleDelegation_Resolved in H1. destruct H1 as (Hd & _).
    now rewrite Hd.
  - apply createSingleDelegation_Resolved in H2. destruct H2 as (Hd & _).
    now rewrite Hd.
Qed.

(** X15. A delegation identity used as the delegating signer signs with
    its inner signer and shows its chain's root key: extending its own
    chain gives that chain followed by a delegation signed by the inner
    signer, under the same root key; and called without a previous chain
    it gives a one-entry chain under the chain's root key, not the inner
    signer's. *)
Theorem create_from_delegation_identity (inner : SignIdentity)
    (chain : @DelegationChain Principal) (to : PublicKey) (when : Date)
    (sd : @SignedDelegation Principal) :
  _createSingleDelegation inner to when None = Resolved sd ->
  create (asSignIdentity (fromDelegation inner chain)) to when
    {| previous := Some (getDelegation (fromDelegation inner chain)) |}
  = Resolved {| delegations := delegations chain ++ [sd];
                publicKey := publicKey chain |}
  /\ create (asSignIdentity (fromDelegation inner chain)) to when
       {| previous := None |}
     = Resolved {| delegations := [sd]; publicKey := publicKey chain |}.
Proof.
  intros Hsd.
  assert (Hsame : _createSingleDelegation
                    (asSignIdentity (fromDelegation inner chain)) to when None
                  = Resolved sd).
  { rewrite <- Hsd. reflexivity. }
  unfold create. rewrite Hsame. cbn [await]. split; reflexivity.
Qed.

End BuildingFacts.

(** ** The further properties at work *)


Example fromJSON_second_entry_fails_first :
  accepts (Principal := string) second_entry_bad = false
  /\ fromJSON (Principal := string) second_entry_bad
     = Throw (Error "Invalid targets.").
Proof. split; reflexivity. Qed.

Example fromJSON_reads_past_other_properties :
  fromJSON annotated_wire = Ok restricted_chain.
Proof. reflexivity. Qed.

Example fromJSON_toJSON_short_and_restricted :
  fromJSON (toJSON restricted_chain) = Ok (chainWithoutTargets restricted_chain)
  /\ fromJSON (toJSON mock_chain) = Throw (Error "Invalid public key.").
Proof. split; reflexivity. Qed.

Lemma chain_of_keeps_root_and_order_witness :
  publicKey two_step_chain = toDer (getPublicKey root)
  /\ map (fun sd => pubkey (delegation sd)) (delegations two_step_chain)
     = map toDer [ getPublicKey middle; getPublicKey bottom ]
  /\ (0 < List.length (delegations two_step_chain))%nat.
Proof.
  apply (chain_of_keeps_root_and_order root
           [ getPublicKey middle; getPublicKey bottom ] two_step_chain).
  apply (chain_step root middle (getPublicKey bottom) (DateOf 1000)
           [ getPublicKey middle ] one_step_chain); [| reflexivity].
  apply (chain_start root (getPublicKey middle) (DateOf 1000)).
  reflexivity.
Defined.



Lemma delegation_and_request_signing_differ_witness :
  hd_error (domainSeparator ++ key_of x03 ++ encode "3b9aca00") = Some x1a
  /\ hd_error (requestDomainSeparator ++ [x07; x2a]) = Some x0a
  /\ requestDomainSeparator ++ [x07; x2a]
     <> domainSeparator ++ key_of x03 ++ encode "3b9aca00".
Proof.
  exact (delegation_and_request_signing_differ (key_of x05)
           (delegation_to x03) one_step_chain call_request _ _
           eq_refl eq_refl).
Defined.

Lemma three_level_chain_in_request_witness :
  exists chain1 chain2 t,
    create root (getPublicKey middle) (DateOf 1000) {| previous := None |}
    = Resolved chain1
    /\ create middle (getPublicKey bottom) (DateOf 1000)
         {| previous := Some chain1 |} = Resolved chain2
    /\ transformRequest (fromDelegation bottom chain2) call_request
       = Resolved t
    /\ sender_delegation (signed_body t)
       = [ signed_by x01 (delegation_to x02);
           signed_by x02 (delegation_to x03) ]
    /\ sender_pubkey (signed_body t) = toDer (getPublicKey root)
    /\ sender_sig (signed_body t)
       = key_of x03 ++ (requestDomainSeparator ++ [x07; x2a]) ++ key_of x03
    /\ pubkey (delegation (signed_by x01 (delegation_to x02)))
       = toDer (getPublicKey middle)
    /\ pubkey (delegation (signed_by x02 (delegation_to x03)))
       = toDer (getPublicKey bottom).
Proof.
  apply (three_level_chain_in_request root middle bottom (DateOf 1000)
           (DateOf 1000) (signed_by x01 (delegation_to x02))
           (signed_by x02 (delegation_to x03)) call_request [x07; x2a]);
    reflexivity.
Defined.

Lemma create_from_delegation_identity_witness :
  create (asSignIdentity (fromDelegation bottom two_step_chain))
    (getPublicKey (signer_of x04)) (DateOf 1000)
    {| previous := Some (getDelegation (fromDelegation bottom two_step_chain)) |}
  = Resolved {| delegations := delegations two_step_chain
                               ++ [ signed_by x03 (delegation_to x04) ];
                publicKey := publicKey two_step_chain |}
  /\ create (asSignIdentity (fromDelegation bottom two_step_chain))
       (getPublicKey (signer_of x04)) (DateOf 1000) {| previous := None |}
     = Resolved {| delegations := [ signed_by x03 (delegation_to x04) ];
                   publicKey := publicKey two_step_chain |}.
Proof.
  apply (create_from_delegation_identity bottom two_step_chain
           (getPublicKey (signer_of x04)) (DateOf 1000)
           (signed_by x03 (delegation_to x04))).
  reflexivity.
Defined.

Lemma toJSON_tells_chains_apart_witness :
  chainWithoutTargets empty_targets_chain = chainWithoutTargets open_chain.
Proof.
  apply (toJSON_tells_chains_apart empty_targets_chain open_chain).
  reflexivity.
Defined.
